(** * LegalAssistantAI, Word add-in: applying AI-suggested edit operations

    A shallow embedding of the task pane's code (WordPanel.tsx, api.ts and
    auth.ts of the add-in) and the properties of its specification.

    The Word object model, the roaming settings store and the HTTP server are
    external to the repository.  They are modelled as interfaces: the code
    is embedded over an arbitrary [Host] (the document capability), and an
    in-memory host is provided to run the code on concrete documents. *)

From Stdlib Require Import String Ascii List Bool Arith Lia DecimalString.
From stdpp Require Import gmap strings.
Import ListNotations.
Local Open Scope string_scope.
Local Open Scope list_scope.

(** ** JavaScript values used by the code *)

Module Js.

(** Strings are sequences of code units; the model covers the code units
    below 256.  [String.prototype.trim] removes white space and line
    terminators at both ends: TAB, LF, VT, FF, CR, SP and NBSP in this
    range. *)
Definition is_ws (c : ascii) : bool :=
  let n := nat_of_ascii c in
  existsb (Nat.eqb n) [9; 10; 11; 12; 13; 32; 160]%nat.

Fixpoint trimStart (s : string) : string :=
  match s with
  | String c s' => if is_ws c then trimStart s' else s
  | EmptyString => EmptyString
  end.

(** [trimEnd] keeps a character when it is not white space or when
    something is left after it. *)
Fixpoint trimEnd (s : string) : string :=
  match s with
  | String c s' =>
      match trimEnd s' with
      | EmptyString => if is_ws c then EmptyString else String c EmptyString
      | t => String c t
      end
  | EmptyString => EmptyString
  end.

Definition trim (s : string) : string := trimEnd (trimStart s).

(** ToBoolean on a string: only the empty string is falsy. *)
Definition truthy_str (s : string) : bool := negb (String.eqb s "").

(** ToBoolean on a value of type [string | null | undefined]: the value is
    [None] when it is null or undefined. *)
Definition truthy (v : option string) : bool :=
  match v with
  | Some s => truthy_str s
  | None => false
  end.

(** [v || d] for such a value. *)
Definition or_else (v : option string) (d : string) : string :=
  match v with
  | Some s => if truthy_str s then s else d
  | None => d
  end.

(** [v || undefined] and [v || null]. *)
Definition or_undefined (s : string) : option string :=
  if truthy_str s then Some s else None.

(** Decimal rendering of a number in a template literal. *)
Definition of_nat (n : nat) : string := NilZero.string_of_uint (Nat.to_uint n).

End Js.

(** ** api.ts: the operations returned by the Suggestion Source *)

(** [comment?: { title?: string | null; body: string } | null].  The operation
    is received as parsed JSON ([op: any]), so [body] can be missing at run
    time although the declared type requires it. *)
Record Comment := mkComment {
  title : option string;
  body : option string
}.

(** [WordOperation].  [type] is kept a string: the value comes from the
    server and the code compares it with string literals.  [highlight] is
    [false] when absent. *)
Record WordOperation := mkOp {
  type : string;
  new_text : option string;
  quote : option string;
  severity : option string;
  highlight : bool;
  comment : option Comment
}.

(** ** The host document capability (Word's object model) *)

Inductive InsertLocation := replace | after | before.

Record SearchOptions := mkSearchOptions {
  matchCase : bool;
  matchWholeWord : bool
}.

(** The result of a host call: the value or the thrown error's message, and
    the document after the call. *)
Definition HostResult (D A : Type) : Type := (string + A) * D.

(** What the code uses of the host.  Every call may throw, and a failed call
    may have changed the document.  [Range] is the type of range handles
    ([Word.Range] proxies).  A host that queues its calls and reports their
    failures at the next synchronization is an instance: its calls succeed
    and its [host_sync] throws. *)
Class Host := {
  Doc : Type;
  Range : Type;
  (** [context.document.trackRevisions = b] *)
  host_setTrackRevisions : bool -> Doc -> HostResult Doc unit;
  (** [context.document.getSelection()] *)
  host_getSelection : Doc -> Range;
  (** [range.text], after [range.load("text")] and a sync *)
  host_text : Range -> Doc -> string;
  (** [range.insertText(text, location)] *)
  host_insertText : Range -> option string -> InsertLocation -> Doc -> HostResult Doc unit;
  (** [range.search(q, options)] with [results.items] *)
  host_search : Range -> string -> SearchOptions -> Doc -> HostResult Doc (list Range);
  (** [range.font.highlightColor = color] *)
  host_setHighlightColor : Range -> string -> Doc -> HostResult Doc unit;
  (** [range.insertComment(text)] *)
  host_insertComment : Range -> string -> Doc -> HostResult Doc unit;
  (** [context.sync()] *)
  host_sync : Doc -> HostResult Doc unit
}.

(** The host calls, as they are recorded in the trace of a run. *)
Inductive Call {R : Type} :=
| CTrackRevisions (b : bool)
| CLoadText (r : R)
| CInsertText (r : R) (text : option string) (loc : InsertLocation)
| CSearch (r : R) (q : string) (o : SearchOptions)
| CHighlight (r : R) (color : string)
| CInsertComment (r : R) (text : string)
| CSync.
Arguments Call : clear implicits.

(** The calls that change text, highlighting or comments. *)
Definition mutating {R} (c : Call R) : bool :=
  match c with
  | CInsertText _ _ _ | CHighlight _ _ | CInsertComment _ _ => true
  | _ => false
  end.

Definition is_insertText {R} (c : Call R) : bool :=
  match c with
  | CInsertText _ _ _ => true
  | _ => false
  end.

(** What a [catch (e)] receives.  The handlers read [e.message] only. *)
Inductive exn :=
| HostError (message : string)   (** thrown by a host call *)
| Error (message : string).      (** [new Error(msg)] and runtime errors *)

Definition message_of (e : exn) : string :=
  match e with
  | HostError m => m
  | Error m => m
  end.

(** ** A monad for code that changes a state and may throw

    A thrown error keeps the state reached so far: nothing is undone. *)
Definition Eff (S A : Type) : Type := S -> (exn + A) * S.

Definition ret {S A} (x : A) : Eff S A := fun s => (inr x, s).

Definition bind {S A B} (m : Eff S A) (k : A -> Eff S B) : Eff S B :=
  fun s =>
    match m s with
    | (inr x, s') => k x s'
    | (inl e, s') => (inl e, s')
    end.

(** [try { m } catch { /* ignore */ }] *)
Definition try_ignore {S} (m : Eff S unit) : Eff S unit :=
  fun s =>
    match m s with
    | (inr x, s') => (inr x, s')
    | (inl _, s') => (inr tt, s')
    end.

(** [try { m } catch (e) { h(e) }] *)
Definition try_catch {S A} (m : Eff S A) (h : exn -> Eff S A) : Eff S A :=
  fun s =>
    match m s with
    | (inr x, s') => (inr x, s')
    | (inl e, s') => h e s'
    end.

Definition get {S} : Eff S S := fun s => (inr s, s).

Declare Scope eff_scope.
Delimit Scope eff_scope with eff.
Notation "x <- m ;; k" := (bind m (fun x => k))
  (at level 100, m at next level, right associativity) : eff_scope.
Notation "m ;; k" := (bind m (fun _ => k))
  (at level 100, right associativity) : eff_scope.
Local Open Scope eff_scope.

(** [for (const x of l) { await f(x); }] *)
Fixpoint forOf {S A} (l : list A) (f : A -> Eff S unit) : Eff S unit :=
  match l with
  | [] => ret tt
  | x :: rest => f x ;; forOf rest f
  end.

(** ** WordPanel.tsx: the request context of a [Word.run] *)

Section Applier.

Context {H : Host}.

(** The document and the host calls issued so far, oldest first. *)
Record Ctx := mkCtx {
  doc : Doc;
  log : list (Call Range)
}.

(** A host call: it is recorded, then run on the document. *)
Definition call {A} (c : Call Range) (f : Doc -> HostResult Doc A) : Eff Ctx A :=
  fun s =>
    match f (doc s) with
    | (inr x, d) => (inr x, mkCtx d (log s ++ [c]))
    | (inl m, d) => (inl (HostError m), mkCtx d (log s ++ [c]))
    end.

Definition document_setTrackRevisions (b : bool) : Eff Ctx unit :=
  call (CTrackRevisions b) (host_setTrackRevisions b).

Definition document_getSelection : Eff Ctx Range :=
  fun s => (inr (host_getSelection (doc s)), s).

Definition range_load_text (r : Range) : Eff Ctx unit :=
  call (CLoadText r) (fun d => (inr tt, d)).

Definition range_text (r : Range) : Eff Ctx string :=
  fun s => (inr (host_text r (doc s)), s).

Definition range_insertText (r : Range) (t : option string) (loc : InsertLocation)
  : Eff Ctx unit :=
  call (CInsertText r t loc) (host_insertText r t loc).

Definition range_search (r : Range) (q : string) (o : SearchOptions)
  : Eff Ctx (list Range) :=
  call (CSearch r q o) (host_search r q o).

Definition font_setHighlightColor (r : Range) (color : string) : Eff Ctx unit :=
  call (CHighlight r color) (host_setHighlightColor r color).

Definition range_insertComment (r : Range) (t : string) : Eff Ctx unit :=
  call (CInsertComment r t) (host_insertComment r t).

Definition context_sync : Eff Ctx unit := call CSync host_sync.

(** [op.comment.title ? `${op.comment.title}: ${op.comment.body}` : op.comment.body] *)
Definition commentText (title : option string) (body : string) : string :=
  match title with
  | Some t => if Js.truthy_str t then t +:+ ": " +:+ body else body
  | None => body
  end.

(** [if (op.comment?.body) { const commentText = ...; r.insertComment(commentText); }] *)
Definition commentOn (r : Range) (op : WordOperation) : Eff Ctx unit :=
  match comment op with
  | Some c =>
      match body c with
      | Some b =>
          if Js.truthy_str b
          then range_insertComment r (commentText (title c) b)
          else ret tt
      | None => ret tt
      end
  | None => ret tt
  end.

(** [applyOperationToWord], the body of its [Word.run]. *)
Definition applyOperationToWord (op : WordOperation) : Eff Ctx unit :=
  try_ignore (document_setTrackRevisions true) ;;
  range <- document_getSelection ;;
  (if String.eqb (type op) "replace_selection" then
     range_insertText range (new_text op) replace
   else if String.eqb (type op) "insert_after_selection" then
     range_insertText range (new_text op) after
   else if String.eqb (type op) "insert_before_selection" then
     range_insertText range (new_text op) before
   else ret tt) ;;
  if String.eqb (type op) "comment_on_quote" then
    let quote := Js.trim (Js.or_else (quote op) "") in
    if negb (Js.truthy_str quote) then
      context_sync
    else
      items <- range_search range quote (mkSearchOptions false false) ;;
      context_sync ;;
      (match items with
       | found :: _ =>
           (if highlight op
            then try_ignore (font_setHighlightColor found "yellow")
            else ret tt) ;;
           commentOn found op
       | [] => ret tt
       end) ;;
      context_sync
  else
    commentOn range op ;;
    context_sync.

(** The read of the selection at the start of a flow:
    [range.load("text"); await context.sync(); ... range.text] *)
Definition readSelectionText : Eff Ctx string :=
  range <- document_getSelection ;;
  range_load_text range ;;
  context_sync ;;
  range_text range.

End Applier.

Arguments Ctx : clear implicits.
Arguments Ctx {H}.

(** ** An in-memory host

    A document is its text, a selection given by offset and length, and
    the comments and highlights attached so far.  Ranges are pairs of an
    offset and a length.  The host is used to run the code on concrete
    documents; the general theorems hold for every [Host]. *)

Module Mem.

Record Document := mkDocument {
  text : string;
  selStart : nat;
  selLen : nat;
  comments : list (nat * nat * string);
  highlights : list (nat * nat * string);
  trackRevisions : bool;
  syncs : nat;
  (** the document type supports revision marking *)
  canTrack : bool;
  (** a null text argument is rejected (otherwise it inserts nothing) *)
  strictArgs : bool
}.

Definition lower (c : ascii) : ascii :=
  let n := nat_of_ascii c in
  if (65 <=? n)%nat && (n <=? 90)%nat then ascii_of_nat (n + 32) else c.

Fixpoint lowerCase (s : string) : string :=
  match s with
  | String c s' => String (lower c) (lowerCase s')
  | EmptyString => EmptyString
  end.

Definition is_word_char (c : ascii) : bool :=
  let n := nat_of_ascii c in
  ((48 <=? n)%nat && (n <=? 57)%nat) || ((65 <=? n)%nat && (n <=? 90)%nat)
  || ((97 <=? n)%nat && (n <=? 122)%nat).

Definition boundary (c : option ascii) : bool :=
  match c with
  | Some a => negb (is_word_char a)
  | None => true
  end.

(** The offsets, from [off], at which [q] occurs in [s]; [prev] is the
    character before [s]. *)
Fixpoint occurrences (wholeWord : bool) (q s : string) (prev : option ascii)
  (off : nat) : list nat :=
  match s with
  | String c s' =>
      (if String.prefix q s
          && (negb wholeWord
              || (boundary prev && boundary (String.get (String.length q) s)))
       then [off] else [])
      ++ occurrences wholeWord q s' (Some c) (S off)
  | EmptyString => []
  end.

Definition searchIn (r : nat * nat) (q : string) (o : SearchOptions)
  (d : Document) : list (nat * nat) :=
  let inside := String.substring (fst r) (snd r) (text d) in
  let q' := if matchCase o then q else lowerCase q in
  let s' := if matchCase o then inside else lowerCase inside in
  map (fun off => (fst r + off, String.length q))
      (occurrences (matchWholeWord o) q' s' None 0).

(** [s] with the [len] characters at [st] replaced by [t]. *)
Definition splice (s : string) (st len : nat) (t : string) : string :=
  String.substring 0 st s +:+ t
  +:+ String.substring (st + len) (String.length s - (st + len)) s.

Definition set_text (d : Document) (t : string) (st len : nat) : Document :=
  mkDocument t st len (comments d) (highlights d) (trackRevisions d) (syncs d)
             (canTrack d) (strictArgs d).

Definition insertAt (r : nat * nat) (t : string) (loc : InsertLocation)
  (d : Document) : Document :=
  match loc with
  | replace => set_text d (splice (text d) (fst r) (snd r) t) (fst r) (String.length t)
  | after => set_text d (splice (text d) (fst r + snd r) 0 t) (selStart d) (selLen d)
  | before =>
      set_text d (splice (text d) (fst r) 0 t)
               (if (fst r <=? selStart d)%nat then selStart d + String.length t
                else selStart d)
               (selLen d)
  end.

Definition insertText (r : nat * nat) (t : option string) (loc : InsertLocation)
  (d : Document) : HostResult Document unit :=
  match t with
  | Some s => (inr tt, insertAt r s loc d)
  | None =>
      if strictArgs d then (inl "InvalidArgument", d)
      else (inr tt, insertAt r "" loc d)
  end.

Definition setTrackRevisions (b : bool) (d : Document) : HostResult Document unit :=
  if canTrack d
  then (inr tt, mkDocument (text d) (selStart d) (selLen d) (comments d)
                           (highlights d) b (syncs d) (canTrack d) (strictArgs d))
  else (inl "NotImplemented", d).

Definition setHighlightColor (r : nat * nat) (color : string) (d : Document)
  : HostResult Document unit :=
  (inr tt, mkDocument (text d) (selStart d) (selLen d) (comments d)
                      (highlights d ++ [(fst r, snd r, color)])
                      (trackRevisions d) (syncs d) (canTrack d) (strictArgs d)).

Definition insertComment (r : nat * nat) (t : string) (d : Document)
  : HostResult Document unit :=
  (inr tt, mkDocument (text d) (selStart d) (selLen d)
                      (comments d ++ [(fst r, snd r, t)]) (highlights d)
                      (trackRevisions d) (syncs d) (canTrack d) (strictArgs d)).

Definition sync (d : Document) : HostResult Document unit :=
  (inr tt, mkDocument (text d) (selStart d) (selLen d) (comments d)
                      (highlights d) (trackRevisions d) (S (syncs d))
                      (canTrack d) (strictArgs d)).

#[export] Instance host : Host := {|
  Doc := Document;
  Range := nat * nat;
  host_setTrackRevisions := setTrackRevisions;
  host_getSelection := fun d => (selStart d, selLen d);
  host_text := fun r d => String.substring (fst r) (snd r) (text d);
  host_insertText := insertText;
  host_search := fun r q o d => (inr (searchIn r q o d), d);
  host_setHighlightColor := setHighlightColor;
  host_insertComment := insertComment;
  host_sync := sync
|}.

(** A fresh document with the whole text selected. *)
Definition open (t : string) : Document :=
  mkDocument t 0 (String.length t) [] [] false 0 true false.

(** A fresh document with a part of the text selected. *)
Definition openAt (t : string) (st len : nat) : Document :=
  mkDocument t st len [] [] false 0 true false.

Definition strict (d : Document) : Document :=
  mkDocument (text d) (selStart d) (selLen d) (comments d) (highlights d)
             (trackRevisions d) (syncs d) (canTrack d) true.

Definition start (d : Document) : Ctx (H := host) := mkCtx d [].

End Mem.

(** ** auth.ts: the credential in the roaming settings *)

Module Auth.

Definition TOKEN_KEY : string := "legal_assistant_access_token".

(** [Office.context.roamingSettings]: the settings in memory and the settings
    last persisted by [saveAsync]. *)
Record RoamingSettings := mkRoaming {
  current : gmap string string;
  persisted : gmap string string
}.

Inductive AsyncResult := Succeeded | Failed (error : string).

Section Store.

(** The status with which the host completes [saveAsync]. *)
Variable saveAsync_status : gmap string string -> AsyncResult.

Definition roaming_set (k v : string) : Eff RoamingSettings unit :=
  fun s => (inr tt, mkRoaming (<[k := v]> (current s)) (persisted s)).

Definition roaming_remove (k : string) : Eff RoamingSettings unit :=
  fun s => (inr tt, mkRoaming (delete k (current s)) (persisted s)).

(** [saveAsync((res) => { if (res.status === Succeeded) resolve(); else reject(res.error); })] *)
Definition saveAsync : Eff RoamingSettings unit :=
  fun s =>
    match saveAsync_status (current s) with
    | Succeeded => (inr tt, mkRoaming (current s) (current s))
    | Failed e => (inl (HostError e), s)
    end.

Definition saveToken (token : string) : Eff RoamingSettings unit :=
  roaming_set TOKEN_KEY token ;; saveAsync.

Definition clearToken : Eff RoamingSettings unit :=
  roaming_remove TOKEN_KEY ;; saveAsync.

End Store.

(** [return Office.context.roamingSettings.get(TOKEN_KEY) || null;] *)
Definition getToken (s : RoamingSettings) : option string :=
  match current s !! TOKEN_KEY with
  | Some v => Js.or_undefined v
  | None => None
  end.

End Auth.

(** ** api.ts: requests to the server *)

(** The JSON bodies the client sends, before [JSON.stringify]. *)
Inductive Body :=
| NoBody
| LoginBody (email password : string)
| ImproveBody (selection_text : string) (instructions : option string)
| DraftBody (clause_request : string) (context_text style_instructions : option string)
| ProofreadBody (selection_text : string).

Record RequestInit := mkInit {
  method : option string;
  headers : gmap string string;
  req_body : Body
}.

Record Request := mkRequest {
  url : string;
  init : RequestInit
}.

(** The fields the client reads in a JSON response.  [detail] is modelled
    where it is a string or missing. *)
Record Json := mkJson {
  detail : option string;
  operations : option (list WordOperation);
  access_token : option string
}.

(** A response: its status, and its body as [res.json()] gives it (or the
    message of the error that call throws). *)
Record Response := mkResponse {
  res_status : nat;
  res_json : string + Json
}.

(** [res.ok] *)
Definition res_ok (r : Response) : bool :=
  (200 <=? res_status r)%nat && (res_status r <=? 299)%nat.

Definition API_BASE_URL : string := "http://localhost:8001".

(** ** WordPanel.tsx: the panel *)

Section Panel.

Context {H : Host}.

(** [fetch]: the response to a request, or the message of a network error. *)
Variable fetch : Request -> string + Response.

(** The panel's world: the document behind [Word.run], the roaming settings,
    the requests sent so far, and the component's state. *)
Record Panel := mkPanel {
  ctx : Ctx;
  roamingSettings : Auth.RoamingSettings;
  sent : list Request;
  selection : string;
  insertText : string;
  status : string;
  improveInstructions : string;
  clauseRequest : string;
  clauseStyle : string;
  useSelectionAsContext : bool
}.

Definition set_ctx (c : Ctx) (p : Panel) : Panel :=
  mkPanel c (roamingSettings p) (sent p) (selection p) (insertText p) (status p)
          (improveInstructions p) (clauseRequest p) (clauseStyle p)
          (useSelectionAsContext p).

Definition set_sent (l : list Request) (p : Panel) : Panel :=
  mkPanel (ctx p) (roamingSettings p) l (selection p) (insertText p) (status p)
          (improveInstructions p) (clauseRequest p) (clauseStyle p)
          (useSelectionAsContext p).

Definition setSelection (t : string) : Eff Panel unit :=
  fun p =>
    (inr tt,
     mkPanel (ctx p) (roamingSettings p) (sent p) t (insertText p) (status p)
             (improveInstructions p) (clauseRequest p) (clauseStyle p)
             (useSelectionAsContext p)).

Definition setStatus (t : string) : Eff Panel unit :=
  fun p =>
    (inr tt,
     mkPanel (ctx p) (roamingSettings p) (sent p) (selection p) (insertText p) t
             (improveInstructions p) (clauseRequest p) (clauseStyle p)
             (useSelectionAsContext p)).

(** [await Word.run(async (context) => { ... })]: the body runs on the
    document; what it throws is thrown by [Word.run].  The bookkeeping of
    the library around the body is not modelled. *)
Definition Word_run {A} (m : Eff Ctx A) : Eff Panel A :=
  fun p =>
    match m (ctx p) with
    | (r, c) => (r, set_ctx c p)
    end.

(** [apiRequest] *)
Definition apiRequest (path : string) (options : RequestInit) : Eff Panel Json :=
  fun p =>
    let token := Auth.getToken (roamingSettings p) in
    let headers :=
      match token with
      | Some t => <["Authorization" := "Bearer " +:+ t]> (headers options)
      | None => headers options
      end in
    let req :=
      mkRequest (API_BASE_URL +:+ path)
                (mkInit (method options) headers (req_body options)) in
    let p' := set_sent (sent p ++ [req]) p in
    match fetch req with
    | inl m => (inl (Error m), p')
    | inr res =>
        if negb (res_ok res) then
          let detail :=
            match res_json res with
            | inr j => detail j
            | inl _ => None
            end in
          let msg :=
            Js.or_else detail
              ("Request failed (" +:+ Js.of_nat (res_status res) +:+ ")") in
          (inl (Error msg), p')
        else
          match res_json res with
          | inr j => (inr j, p')
          | inl m => (inl (Error m), p')
          end
    end.

Definition json_headers : gmap string string :=
  {["Content-Type" := "application/json"]}.

Definition improveWriting (selectionText : string) (instructions : option string)
  : Eff Panel Json :=
  apiRequest "/api/v1/word/improve-writing"
    (mkInit (Some "POST") json_headers (ImproveBody selectionText instructions)).

Definition draftClause (clause_request : string)
  (context_text style_instructions : option string) : Eff Panel Json :=
  apiRequest "/api/v1/word/draft-clause"
    (mkInit (Some "POST") json_headers
            (DraftBody clause_request context_text style_instructions)).

Definition proofreadSelection (selectionText : string) : Eff Panel Json :=
  apiRequest "/api/v1/word/proofread"
    (mkInit (Some "POST") json_headers (ProofreadBody selectionText)).

(** [resp.operations?.[0]] *)
Definition first_operation (resp : Json) : option WordOperation :=
  match operations resp with
  | Some (op :: _) => Some op
  | _ => None
  end.

(** [resp.operations || []] *)
Definition operations_or_empty (resp : Json) : list WordOperation :=
  match operations resp with
  | Some ops => ops
  | None => []
  end.

(** A handler runs to its end: what it throws is caught inside. *)
Definition handler (m : Eff Panel unit) (p : Panel) : Panel := snd (m p).

Definition getSelection : Panel -> Panel :=
  handler (
    setStatus "Reading selection..." ;;
    try_catch
      (text <- Word_run readSelectionText ;;
       setSelection text ;;
       setStatus "✅ Selection loaded")
      (fun e => setStatus ("❌ Failed: " +:+ message_of e))).

Definition insertAfterSelection : Panel -> Panel :=
  handler (
    setStatus "Inserting text..." ;;
    try_catch
      (p <- get ;;
       Word_run (
         range <- document_getSelection ;;
         range_insertText range
           (Some (String (ascii_of_nat 10) (insertText p)
                  +:+ String (ascii_of_nat 10) EmptyString)) after ;;
         context_sync) ;;
       setStatus "✅ Inserted")
      (fun e => setStatus ("❌ Failed: " +:+ message_of e))).

Definition runImproveWriting : Panel -> Panel :=
  handler (
    setStatus "Improving writing (calling API)..." ;;
    try_catch
      (selectedText <- Word_run readSelectionText ;;
       if negb (Js.truthy_str (Js.trim selectedText)) then
         setStatus "⚠️ Please select some text first"
       else
         p <- get ;;
         resp <- improveWriting selectedText
                   (Js.or_undefined (improveInstructions p)) ;;
         match first_operation resp with
         | None => setStatus "❌ No operation returned"
         | Some op =>
             Word_run (applyOperationToWord op) ;;
             setStatus "✅ Improve writing applied (tracked if enabled)"
         end)
      (fun e => setStatus ("❌ Improve writing failed: " +:+ message_of e))).

(** The click handler of the "Proofread + highlight" button. *)
Definition proofread : Panel -> Panel :=
  handler (
    setStatus "Proofreading selection (calling API)..." ;;
    try_catch
      (selectedText <- Word_run readSelectionText ;;
       if negb (Js.truthy_str (Js.trim selectedText)) then
         setStatus "⚠️ Please select some text first"
       else
         resp <- proofreadSelection selectedText ;;
         let ops := operations_or_empty resp in
         if (length ops =? 0)%nat then
           setStatus "✅ No issues found"
         else
           forOf ops (fun op => Word_run (applyOperationToWord op)) ;;
           setStatus ("✅ Added " +:+ Js.of_nat (length ops) +:+ " comments"))
      (fun e => setStatus ("❌ Proofread failed: " +:+ message_of e))).

(** The click handler of the "Draft clause" button. *)
Definition draftClauseClick : Panel -> Panel :=
  handler (
    setStatus "Drafting clause (calling API)..." ;;
    try_catch
      (p <- get ;;
       contextText <-
         (if useSelectionAsContext p then
            text <- Word_run readSelectionText ;;
            ret (Js.or_undefined (Js.trim text))
          else ret None) ;;
       if negb (Js.truthy_str (Js.trim (clauseRequest p))) then
         setStatus "⚠️ Enter a clause request first"
       else
         resp <- draftClause (clauseRequest p) contextText
                   (Js.or_undefined (clauseStyle p)) ;;
         match first_operation resp with
         | None => setStatus "❌ No operation returned"
         | Some op =>
             Word_run (applyOperationToWord op) ;;
             setStatus "✅ Clause inserted (tracked if enabled)"
         end)
      (fun e => setStatus ("❌ Draft clause failed: " +:+ message_of e))).

End Panel.

Arguments Panel : clear implicits.
Arguments Panel {H}.

(** ** Vocabulary of the statements *)

Section Vocabulary.

Context {H : Host}.

(** The context after the best-effort attempt to turn revision marking on,
    the first step of [applyOperationToWord]. *)
Definition tracked (c : Ctx) : Ctx :=
  snd (try_ignore (document_setTrackRevisions true) c).

(** The selection range of the context's document. *)
Definition selectionOf (c : Ctx) : Range := host_getSelection (doc c).

(** The quote the code searches for: its local [quote], that is
    [(op.quote || "").trim()]. *)
Definition searchedQuote (op : WordOperation) : string :=
  Js.trim (Js.or_else (quote op) "").

(** The options of the code's search: [{ matchCase: false, matchWholeWord: false }]. *)
Definition searchOptions : SearchOptions := mkSearchOptions false false.

(** The context after the optional highlight of [found]; a failure of the
    highlight is swallowed. *)
Definition highlighted (op : WordOperation) (found : Range) (c : Ctx) : Ctx :=
  if highlight op
  then snd (try_ignore (font_setHighlightColor found "yellow") c)
  else c.

(** The calls of the optional highlight of [found]. *)
Definition highlightCalls (op : WordOperation) (found : Range) : list (Call Range) :=
  if highlight op then [CHighlight found "yellow"] else [].

(** The calls of the comment step on range [r]: one [insertComment] when
    the operation has a comment whose body is truthy, none otherwise. *)
Definition commentCalls (r : Range) (op : WordOperation) : list (Call Range) :=
  match comment op with
  | Some c =>
      match body c with
      | Some b =>
          if Js.truthy_str b then [CInsertComment r (commentText (title c) b)]
          else []
      | None => []
      end
  | None => []
  end.

(** [emits P m]: whatever the state, [m] only adds calls to the log, the
    calls it adds satisfy [P], and it throws host errors only. *)
Definition emits {A} (P : Call Range -> Prop) (m : Eff Ctx A) : Prop :=
  forall s,
    (exists l, log (snd (m s)) = log s ++ l /\ Forall P l)
    /\ (forall e, fst (m s) = inl e -> exists msg, e = HostError msg).

End Vocabulary.

Definition is_search {R} (c : Call R) : bool :=
  match c with
  | CSearch _ _ _ => true
  | _ => false
  end.

Definition is_insertComment {R} (c : Call R) : bool :=
  match c with
  | CInsertComment _ _ => true
  | _ => false
  end.

(** A field of type [string | null | undefined] is present when the code's
    test of it succeeds: it is neither null, undefined nor the empty string. *)
Definition present (v : option string) : Prop := Js.truthy v = true.

(** [op.comment?.body] *)
Definition commentBody (op : WordOperation) : option string :=
  match comment op with
  | Some c => body c
  | None => None
  end.

(** The insert location of the three text kinds. *)
Definition location_of (t : string) : option InsertLocation :=
  if String.eqb t "replace_selection" then Some replace
  else if String.eqb t "insert_after_selection" then Some after
  else if String.eqb t "insert_before_selection" then Some before
  else None.

(** The four kinds of operation the code knows. *)
Definition known_kind (t : string) : bool :=
  existsb (String.eqb t)
    ["replace_selection"; "insert_after_selection"; "insert_before_selection";
     "comment_on_quote"].

(** ** Vocabulary of the statements about batches and flows *)

Section BatchVocabulary.

Context {H : Host}.

(** [Sequenced ops p p']: from [p], the operations of [ops] have been applied
    one after the other, in the order of the list, each run ending with its
    synchronization call before the next one starts, and [p'] is reached. *)
Inductive Sequenced : list WordOperation -> Panel -> Panel -> Prop :=
| Sequenced_nil (p : Panel) : Sequenced [] p p
| Sequenced_cons (op : WordOperation) (rest : list WordOperation)
    (p p1 p' : Panel) (calls : list (Call Range)) :
    Word_run (applyOperationToWord op) p = (inr tt, p1) ->
    log (ctx p1) = log (ctx p) ++ calls ++ [CSync] ->
    Sequenced rest p1 p' ->
    Sequenced (op :: rest) p p'.

(** A computation that, when it succeeds, has ended with a synchronization. *)
Definition ends_with_sync (m : Eff Ctx unit) : Prop :=
  forall s s',
    m s = (inr tt, s') -> exists calls, log s' = log s ++ calls ++ [CSync].

End BatchVocabulary.

(** The server [f] with the operations of its JSON answers replaced by [ops]. *)
Definition with_operations (f : Request -> string + Response)
  (ops : list WordOperation) : Request -> string + Response :=
  fun req =>
    match f req with
    | inr res =>
        inr (mkResponse (res_status res)
               match res_json res with
               | inr j => inr (mkJson (detail j) (Some ops) (access_token j))
               | inl m => inl m
               end)
    | inl m => inl m
    end.

(** [detail?.detail] of a response that is not ok. *)
Definition response_detail (res : Response) : option string :=
  match res_json res with
  | inr j => detail j
  | inl _ => None
  end.

(** The message of the error [apiRequest] throws for a response that is not
    ok: [detail?.detail || `Request failed (${res.status})`]. *)
Definition failure_message (res : Response) : string :=
  Js.or_else (response_detail res)
    ("Request failed (" +:+ Js.of_nat (res_status res) +:+ ")").

(** A server that answers every request with [res]. *)
Definition answering (res : Response) : Request -> string + Response :=
  fun _ => inr res.

(** ** Sample documents and operations *)

Module Sample.

Definition agreement : Mem.Document :=
  Mem.open "The Term of this Agreement is 12 months.".

Definition confirm_duration : WordOperation :=
  mkOp "comment_on_quote" None (Some "12 months") None false
       (Some (mkComment None (Some "Confirm duration"))).

Definition blank_quote : WordOperation :=
  mkOp "comment_on_quote" None (Some "") None true
       (Some (mkComment None (Some "nothing to anchor"))).

Definition missing_quote : WordOperation :=
  mkOp "comment_on_quote" None (Some "indemnity") None true
       (Some (mkComment None (Some "not in the selection"))).

Definition confidentiality : WordOperation :=
  mkOp "comment_on_quote" None (Some "Confidentiality") None true None.

Definition clause : Mem.Document := Mem.open "the confidentiality clause".

Definition dated : Mem.Document := Mem.openAt "on today's date." 3 12.

Definition effective_date : WordOperation :=
  mkOp "replace_selection" (Some "the Effective Date") None None false None.

(** A replacement without its text. *)
Definition null_replace : WordOperation :=
  mkOp "replace_selection" None None None false None.

(** An operation of a kind the code does not know. *)
Definition remark : WordOperation :=
  mkOp "remark" (Some "ignored") (Some "Term") None true
       (Some (mkComment (Some "Scope") (Some "Check the defined terms"))).

Definition first_comment : WordOperation :=
  mkOp "comment_on_quote" None (Some "Term") None false
       (Some (mkComment None (Some "first"))).

Definition third_comment : WordOperation :=
  mkOp "comment_on_quote" None (Some "months") None false
       (Some (mkComment None (Some "third"))).

(** A server that answers every request with the operations [ops]. *)
Definition server (ops : list WordOperation) : Request -> string + Response :=
  answering (mkResponse 200 (inr (mkJson None (Some ops) None))).

(** The panel as it is first rendered, on document [d]. *)
Definition panel (d : Mem.Document) : Panel (H := Mem.host) :=
  mkPanel (Mem.start d) (Auth.mkRoaming ∅ ∅) [] "" "Hello from Legal Assistant AI"
          "" "" "" "US English, formal, concise" true.

Definition not_authenticated (status : nat) : Response :=
  mkResponse status (inr (mkJson (Some "Not authenticated") None None)).

Definition no_settings : Auth.RoamingSettings := Auth.mkRoaming ∅ ∅.

Definition always_saved : gmap string string -> Auth.AsyncResult :=
  fun _ => Auth.Succeeded.

(** The panel on a document in which nothing is selected, with a clause
    request typed in. *)
Definition drafting_panel : Panel (H := Mem.host) :=
  mkPanel (Mem.start (Mem.openAt "Whereas the parties agree." 8 0))
          no_settings [] "" "Hello from Legal Assistant AI" "" ""
          "termination for convenience" "US English, formal, concise" true.

End Sample.

(** ** AuthPanel.tsx, and [login] and [me] of api.ts *)

Section AuthPanel.

Context {H : Host}.

Variable fetch : Request -> string + Response.

Variable saveAsync_status : gmap string string -> Auth.AsyncResult.

(** [user.email] of the body [me] returns.  The record [Json] does not
    carry the field: how it is read in a body is a parameter. *)
Variable email_of : Json -> option string.

Definition login (email password : string) : Eff Panel Json :=
  apiRequest fetch "/api/v1/auth/login"
    (mkInit (Some "POST") json_headers (LoginBody email password)).

(** [apiRequest("/api/v1/auth/me")]: the options are the default [{}]. *)
Definition me : Eff Panel Json :=
  apiRequest fetch "/api/v1/auth/me" (mkInit None ∅ NoBody).

(** The task pane: the Word panel with the roaming settings and the network,
    and the state of the account panel. *)
Record App := mkApp {
  panel : Panel;
  email : string;
  password : string;
  authStatus : string;
  userEmail : option string
}.

Definition set_roamingSettings (s : Auth.RoamingSettings) (p : Panel) : Panel :=
  mkPanel (ctx p) s (sent p) (selection p) (insertText p) (status p)
          (improveInstructions p) (clauseRequest p) (clauseStyle p)
          (useSelectionAsContext p).

(** A call of api.ts from the account panel. *)
Definition in_panel {A} (m : Eff Panel A) : Eff App A :=
  fun a =>
    match m (panel a) with
    | (r, p) => (r, mkApp p (email a) (password a) (authStatus a) (userEmail a))
    end.

(** A call of auth.ts from the account panel. *)
Definition in_settings {A} (m : Eff Auth.RoamingSettings A) : Eff App A :=
  fun a =>
    match m (roamingSettings (panel a)) with
    | (r, s) =>
        (r, mkApp (set_roamingSettings s (panel a)) (email a) (password a)
                  (authStatus a) (userEmail a))
    end.

Definition setUserEmail (v : option string) : Eff App unit :=
  fun a => (inr tt, mkApp (panel a) (email a) (password a) (authStatus a) v).

Definition setAuthStatus (t : string) : Eff App unit :=
  fun a => (inr tt, mkApp (panel a) (email a) (password a) t (userEmail a)).

(** [saveToken(res.access_token)].  The declared type of the field is
    [string]; where the body lacks it the argument is [undefined], and a
    setting set to [undefined] reads back as a setting that is not set. *)
Definition saveTokenValue (v : option string) : Eff Auth.RoamingSettings unit :=
  match v with
  | Some t => Auth.saveToken saveAsync_status t
  | None => Auth.roaming_remove Auth.TOKEN_KEY ;; Auth.saveAsync saveAsync_status
  end.

Definition refreshMe : Eff App unit :=
  a <- get ;;
  match Auth.getToken (roamingSettings (panel a)) with
  | None => setUserEmail None
  | Some _ =>
      try_catch
        (user <- in_panel me ;;
         setUserEmail (email_of user) ;;
         setAuthStatus "✅ Logged in")
        (fun e =>
           setUserEmail None ;;
           setAuthStatus ("⚠️ Session invalid: " +:+ message_of e))
  end.

Definition onLogin : Eff App unit :=
  setAuthStatus "Logging in..." ;;
  try_catch
    (a <- get ;;
     res <- in_panel (login (email a) (password a)) ;;
     in_settings (saveTokenValue (access_token res)) ;;
     refreshMe)
    (fun e => setAuthStatus ("❌ Login failed: " +:+ message_of e)).

(** [onLogout] has no [try]: what [clearToken] throws leaves the handler. *)
Definition onLogout : Eff App unit :=
  in_settings (Auth.clearToken saveAsync_status) ;;
  setUserEmail None ;;
  setAuthStatus "Logged out".

End AuthPanel.

Arguments App : clear implicits.
Arguments App {H}.

(** ** Vocabulary of the statements about the whole add-in *)

(** The calls whose failure the code swallows. *)
Definition swallowed {R} (c : Call R) : bool :=
  match c with
  | CTrackRevisions _ | CHighlight _ _ => true
  | _ => false
  end.

Definition is_sync {R} (c : Call R) : bool :=
  match c with
  | CSync => true
  | _ => false
  end.

Definition is_highlight {R} (c : Call R) : bool :=
  match c with
  | CHighlight _ _ => true
  | _ => false
  end.

(** The number of synchronization calls in a log. *)
Definition syncs_in {R} (l : list (Call R)) : nat :=
  length (List.filter is_sync l).

Definition with_severity (v : option string) (op : WordOperation) : WordOperation :=
  mkOp (type op) (new_text op) (quote op) v (highlight op) (comment op).

Definition with_new_text (v : option string) (op : WordOperation) : WordOperation :=
  mkOp (type op) v (quote op) (severity op) (highlight op) (comment op).

Definition with_quote (v : option string) (h : bool) (op : WordOperation)
  : WordOperation :=
  mkOp (type op) (new_text op) v (severity op) h (comment op).

Section FlowVocabulary.

Context {H : Host}.

(** The roaming settings and the panel's inputs are the same in [p] and [p']. *)
Definition same_inputs (p p' : Panel) : Prop :=
  roamingSettings p' = roamingSettings p
  /\ insertText p' = insertText p
  /\ improveInstructions p' = improveInstructions p
  /\ clauseRequest p' = clauseRequest p
  /\ clauseStyle p' = clauseStyle p
  /\ useSelectionAsContext p' = useSelectionAsContext p.

(** [keeps n m]: [m] sends at most [n] requests, after those already sent,
    and changes neither the roaming settings nor the panel's inputs. *)
Definition keeps (n : nat) {A} (m : Eff Panel A) : Prop :=
  forall p,
    same_inputs p (snd (m p))
    /\ exists l, sent (snd (m p)) = sent p ++ l /\ length l <= n.

(** The same for a handler. *)
Definition handler_keeps (n : nat) (h : Panel -> Panel) : Prop :=
  forall p,
    same_inputs p (h p)
    /\ exists l, sent (h p) = sent p ++ l /\ length l <= n.

(** The host call a log entry stands for, with its result dropped. *)
Definition perform (c : Call Range) : Eff Ctx unit :=
  match c with
  | CTrackRevisions b => document_setTrackRevisions b
  | CLoadText r => range_load_text r
  | CInsertText r t loc => range_insertText r t loc
  | CSearch r q o => range_search r q o ;; ret tt
  | CHighlight r color => font_setHighlightColor r color
  | CInsertComment r t => range_insertComment r t
  | CSync => context_sync
  end.

(** [stops_at_failure m]: when [m] throws [e] and ends in [s'], a host call
    whose failure is not swallowed threw [e] and left [s'], and the calls
    before it are all that [m] had added to the log. *)
Definition stops_at_failure {A} (m : Eff Ctx A) : Prop :=
  forall s e s',
    m s = (inl e, s') ->
    exists l c s0,
      log s0 = log s ++ l
      /\ swallowed c = false
      /\ perform c s0 = (inl e, s').

End FlowVocabulary.

(** ** More sample data *)

Module Demo.

Definition login_url : string := "http://localhost:8001/api/v1/auth/login".

(** A server that answers a login with a token and everything else with an
    empty body. *)
Definition auth_server : Request -> string + Response :=
  fun req =>
    if String.eqb (url req) login_url
    then inr (mkResponse 200 (inr (mkJson None None (Some "tok-1"))))
    else inr (mkResponse 200 (inr (mkJson None None None))).

(** A server that refuses the login. *)
Definition refusing_server : Request -> string + Response :=
  answering (mkResponse 401 (inr (mkJson (Some "Invalid credentials") None None))).

Definition email_of : Json -> option string := fun _ => Some "ada@example.com".

Definition never_saved : gmap string string -> Auth.AsyncResult :=
  fun _ => Auth.Failed "save failed".

Definition app : App (H := Mem.host) :=
  mkApp (Sample.panel Sample.agreement) "ada@example.com" "secret" "" None.

(** The add-in with a token in the roaming settings and a user shown. *)
Definition signed_in : App (H := Mem.host) :=
  mkApp (set_roamingSettings
           (Auth.mkRoaming {[Auth.TOKEN_KEY := "tok-0"]} {[Auth.TOKEN_KEY := "tok-0"]})
           (Sample.panel Sample.agreement))
        "ada@example.com" "secret" "✅ Logged in" (Some "ada@example.com").

(** A selection with white space around its text. *)
Definition padded : Mem.Document := Mem.openAt "x  shall not  y" 1 13.

(** A replacement with a comment. *)
Definition replace_with_comment : WordOperation :=
  mkOp "replace_selection" (Some "must") None None true
       (Some (mkComment (Some "Style") (Some "Prefer must"))).

(** A host that rejects revision marking. *)
Definition untracked (d : Mem.Document) : Mem.Document :=
  Mem.mkDocument (Mem.text d) (Mem.selStart d) (Mem.selLen d) (Mem.comments d)
    (Mem.highlights d) (Mem.trackRevisions d) (Mem.syncs d) false
    (Mem.strictArgs d).

End Demo.

(** ** The web application: the search page and the documents page *)

(** [try { m } finally { f }] *)
Definition finally {S A} (m : Eff S A) (f : Eff S unit) : Eff S A :=
  fun s =>
    match m s with
    | (r, s1) =>
        match f s1 with
        | (inr _, s2) => (r, s2)
        | (inl e, s2) => (inl e, s2)
        end
    end.

(** [throw e] *)
Definition throw {S A} (e : exn) : Eff S A := fun s => (inl e, s).

(** [err.message || d] *)
Definition message_or (e : exn) (d : string) : string :=
  if Js.truthy_str (message_of e) then message_of e else d.

Module Web.

(** The bodies the pages send: the JSON of a search, where the number 0.3 is
    kept as its JSON text, and the form data of an upload. *)
Inductive Payload :=
| NoPayload
| SearchPayload (query : string) (limit : nat) (similarity_threshold : string)
| FormPayload (file : string) (title description : option string).

Record WebRequest := mkWebRequest {
  w_url : string;
  w_method : option string;
  w_headers : gmap string string;
  w_payload : Payload
}.

(** A selected file: its name and its size. *)
Record File := mkFile {
  file_name : string;
  file_size : nat
}.

(** What the pages use of the browser: the local storage, the paths pushed
    to the router, the requests sent and the lines of the error console. *)
Record Browser := mkBrowser {
  localStorage : gmap string string;
  pushed : list string;
  requests : list WebRequest;
  console : list string
}.

Definition push (path : string) (b : Browser) : Browser :=
  mkBrowser (localStorage b) (pushed b ++ [path]) (requests b) (console b).

Definition record (r : WebRequest) (b : Browser) : Browser :=
  mkBrowser (localStorage b) (pushed b) (requests b ++ [r]) (console b).

Definition console_error (line : string) (b : Browser) : Browser :=
  mkBrowser (localStorage b) (pushed b) (requests b) (console b ++ [line]).

(** [localStorage.getItem("access_token")] *)
Definition access_token_of (b : Browser) : option string :=
  localStorage b !! "access_token".

Definition bearer (token : string) : gmap string string :=
  {["Authorization" := "Bearer " +:+ token]}.

Section Pages.

(** The search results and the documents are passed through as the server
    gives them. *)
Context {SearchResult Document : Type}.

(** The fields the pages read in a JSON answer. *)
Record WebJson := mkWebJson {
  w_detail : option string;
  w_results : list SearchResult;
  w_documents : list Document
}.

Record WebResponse := mkWebResponse {
  w_status : nat;
  w_json : string + WebJson
}.

Definition w_ok (r : WebResponse) : bool :=
  (200 <=? w_status r)%nat && (w_status r <=? 299)%nat.

Variable fetch : WebRequest -> string + WebResponse.

(** [await response.json()] *)
Definition json_of {S} (r : WebResponse) : Eff S WebJson :=
  fun s =>
    match w_json r with
    | inr j => (inr j, s)
    | inl m => (inl (Error m), s)
    end.

(** *** search/page.tsx *)

Record SearchPage := mkSearchPage {
  s_browser : Browser;
  query : string;
  results : list SearchResult;
  s_loading : bool;
  s_error : string;
  searched : bool
}.

Definition s_in_browser (f : Browser -> Browser) : Eff SearchPage unit :=
  fun s =>
    (inr tt,
     mkSearchPage (f (s_browser s)) (query s) (results s) (s_loading s)
                  (s_error s) (searched s)).

Definition s_fetch (r : WebRequest) : Eff SearchPage WebResponse :=
  fun s =>
    let s' := mkSearchPage (record r (s_browser s)) (query s) (results s)
                (s_loading s) (s_error s) (searched s) in
    match fetch r with
    | inr res => (inr res, s')
    | inl m => (inl (Error m), s')
    end.

Definition setResults (l : list SearchResult) : Eff SearchPage unit :=
  fun s =>
    (inr tt,
     mkSearchPage (s_browser s) (query s) l (s_loading s) (s_error s)
                  (searched s)).

Definition s_setLoading (b : bool) : Eff SearchPage unit :=
  fun s =>
    (inr tt,
     mkSearchPage (s_browser s) (query s) (results s) b (s_error s) (searched s)).

Definition s_setError (t : string) : Eff SearchPage unit :=
  fun s =>
    (inr tt,
     mkSearchPage (s_browser s) (query s) (results s) (s_loading s) t
                  (searched s)).

Definition setSearched (b : bool) : Eff SearchPage unit :=
  fun s =>
    (inr tt,
     mkSearchPage (s_browser s) (query s) (results s) (s_loading s) (s_error s) b).

Definition search_request (query token : string) : WebRequest :=
  mkWebRequest "http://localhost:8001/api/v1/search/" (Some "POST")
    (<["Content-Type" := "application/json"]> (bearer token))
    (SearchPayload query 10 "0.3").

Definition handleSearch : Eff SearchPage unit :=
  s <- get ;;
  if negb (Js.truthy_str (Js.trim (query s))) then
    s_setError "Please enter a search query"
  else if negb (Js.truthy (access_token_of (s_browser s))) then
    s_in_browser (push "/login")
  else
    s_setLoading true ;;
    s_setError "" ;;
    setSearched false ;;
    finally
      (try_catch
         (response <- s_fetch
                        (search_request (query s)
                           (Js.or_else (access_token_of (s_browser s)) "")) ;;
          if (w_status response =? 401)%nat then
            s_in_browser (push "/login")
          else if negb (w_ok response) then
            data <- json_of response ;;
            throw (Error (Js.or_else (w_detail data) "Search failed"))
          else
            data <- json_of response ;;
            setResults (w_results data) ;;
            setSearched true)
         (fun err => s_setError (message_or err "Search failed")))
      (s_setLoading false).

(** *** documents/page.tsx *)

Record DocumentsPage := mkDocumentsPage {
  d_browser : Browser;
  documents : list Document;
  d_loading : bool;
  uploading : bool;
  d_error : string;
  selectedFile : option File;
  d_title : string;
  d_description : string
}.

(** The page with another browser state. *)
Definition with_browser (b : Browser) (s : DocumentsPage) : DocumentsPage :=
  mkDocumentsPage b (documents s) (d_loading s) (uploading s) (d_error s)
    (selectedFile s) (d_title s) (d_description s).

Definition d_in_browser (f : Browser -> Browser) : Eff DocumentsPage unit :=
  fun s =>
    (inr tt,
     mkDocumentsPage (f (d_browser s)) (documents s) (d_loading s) (uploading s)
                     (d_error s) (selectedFile s) (d_title s) (d_description s)).

Definition d_fetch (r : WebRequest) : Eff DocumentsPage WebResponse :=
  fun s =>
    let s' := mkDocumentsPage (record r (d_browser s)) (documents s)
                (d_loading s) (uploading s) (d_error s) (selectedFile s)
                (d_title s) (d_description s) in
    match fetch r with
    | inr res => (inr res, s')
    | inl m => (inl (Error m), s')
    end.

Definition setDocuments (l : list Document) : Eff DocumentsPage unit :=
  fun s =>
    (inr tt,
     mkDocumentsPage (d_browser s) l (d_loading s) (uploading s) (d_error s)
                     (selectedFile s) (d_title s) (d_description s)).

Definition d_setLoading (b : bool) : Eff DocumentsPage unit :=
  fun s =>
    (inr tt,
     mkDocumentsPage (d_browser s) (documents s) b (uploading s) (d_error s)
                     (selectedFile s) (d_title s) (d_description s)).

Definition setUploading (b : bool) : Eff DocumentsPage unit :=
  fun s =>
    (inr tt,
     mkDocumentsPage (d_browser s) (documents s) (d_loading s) b (d_error s)
                     (selectedFile s) (d_title s) (d_description s)).

Definition d_setError (t : string) : Eff DocumentsPage unit :=
  fun s =>
    (inr tt,
     mkDocumentsPage (d_browser s) (documents s) (d_loading s) (uploading s) t
                     (selectedFile s) (d_title s) (d_description s)).

(** [setSelectedFile(null); setTitle(""); setDescription("");] *)
Definition resetForm : Eff DocumentsPage unit :=
  fun s =>
    (inr tt,
     mkDocumentsPage (d_browser s) (documents s) (d_loading s) (uploading s)
                     (d_error s) None "" "").

Definition loadDocuments : Eff DocumentsPage unit :=
  s <- get ;;
  if negb (Js.truthy (access_token_of (d_browser s))) then
    d_in_browser (push "/login")
  else
    finally
      (try_catch
         (response <- d_fetch
                        (mkWebRequest "http://localhost:8001/api/v1/documents/"
                           None
                           (bearer (Js.or_else (access_token_of (d_browser s)) ""))
                           NoPayload) ;;
          if (w_status response =? 401)%nat then
            d_in_browser (push "/login")
          else if negb (w_ok response) then
            throw (Error "Failed to load documents")
          else
            data <- json_of response ;;
            setDocuments (w_documents data))
         (fun err => d_setError (message_or err "Failed to load documents")))
      (d_setLoading false).

Definition handleUpload : Eff DocumentsPage unit :=
  s <- get ;;
  match selectedFile s with
  | None => d_setError "Please select a file"
  | Some file =>
      if negb (Js.truthy (access_token_of (d_browser s))) then
        d_in_browser (push "/login")
      else
        setUploading true ;;
        d_setError "" ;;
        finally
          (try_catch
             (response <- d_fetch
                            (mkWebRequest
                               "http://localhost:8001/api/v1/documents/upload"
                               (Some "POST")
                               (bearer
                                  (Js.or_else (access_token_of (d_browser s)) ""))
                               (FormPayload (file_name file)
                                  (Js.or_undefined (d_title s))
                                  (Js.or_undefined (d_description s)))) ;;
              (if negb (w_ok response) then
                 data <- json_of response ;;
                 throw (Error (Js.or_else (w_detail data) "Upload failed"))
               else ret tt) ;;
              resetForm ;;
              loadDocuments)
             (fun err => d_setError (message_or err "Upload failed")))
          (setUploading false)
  end.

(** [handleDelete(documentId)]; [confirmed] is the answer to the [confirm]
    dialog. *)
Definition handleDelete (confirmed : bool) (documentId : string)
  : Eff DocumentsPage unit :=
  if negb confirmed then ret tt
  else
    s <- get ;;
    if negb (Js.truthy (access_token_of (d_browser s))) then ret tt
    else
      try_catch
        (response <- d_fetch
                       (mkWebRequest
                          ("http://localhost:8001/api/v1/documents/"
                           +:+ documentId)
                          (Some "DELETE")
                          (bearer (Js.or_else (access_token_of (d_browser s)) ""))
                          NoPayload) ;;
         if w_ok response then loadDocuments else ret tt)
        (fun err =>
           d_in_browser (console_error ("Delete failed: " +:+ message_of err))).

End Pages.

End Web.

(** ** Sample data for the web pages *)

Module WebDemo.

Definition browser : Web.Browser :=
  Web.mkBrowser {["access_token" := "tok-9"]} [] [] [].

Definition anonymous : Web.Browser := Web.mkBrowser ∅ [] [] [].

Definition search_page (b : Web.Browser) (q : string)
  : Web.SearchPage (SearchResult := string) :=
  Web.mkSearchPage b q ["old result"] false "" true.

Definition documents_page (b : Web.Browser)
  : Web.DocumentsPage (Document := string) :=
  Web.mkDocumentsPage b ["lease.pdf"] true false ""
    (Some (Web.mkFile "nda.docx" 2048)) "NDA" "".

Definition answer (status : nat) (detail : option string)
  : Web.WebRequest -> string + Web.WebResponse (SearchResult := string)
                                 (Document := string) :=
  fun _ =>
    inr (Web.mkWebResponse status
           (inr (Web.mkWebJson detail ["clause 4"] ["lease.pdf"; "nda.docx"]))).

Definition offline
  : Web.WebRequest -> string + Web.WebResponse (SearchResult := string)
                                 (Document := string) :=
  fun _ => inl "Failed to fetch".

End WebDemo.

(** * Properties *)

(** ** The monad and the host calls *)

Section ApplierFacts.

Context {H : Host}.

Lemma bind_ok {S A B} (m : Eff S A) (k : A -> Eff S B) s x s' :
  m s = (inr x, s') -> bind m k s = k x s'.
Proof. intros E. unfold bind. now rewrite E. Qed.

Lemma bind_err {S A B} (m : Eff S A) (k : A -> Eff S B) s e s' :
  m s = (inl e, s') -> bind m k s = (inl e, s').
Proof. intros E. unfold bind. now rewrite E. Qed.

(** A result is the pair of its outcome and its final state. *)
Lemma run_ok {S A} (r : (exn + A) * S) (x : A) :
  fst r = inr x -> r = (inr x, snd r).
Proof. destruct r as [o s]. cbn. now intros ->. Qed.

Lemma run_err {S A} (r : (exn + A) * S) (e : exn) :
  fst r = inl e -> r = (inl e, snd r).
Proof. destruct r as [o s]. cbn. now intros ->. Qed.

Lemma try_ignore_ok {S} (m : Eff S unit) s :
  try_ignore m s = (inr tt, snd (try_ignore m s)).
Proof. unfold try_ignore. destruct (m s) as [[e|[]] s']; reflexivity. Qed.

(** A host call adds itself to the log, whatever its outcome. *)
Lemma call_log {A} (c : Call Range) (f : Doc -> HostResult Doc A) s :
  log (snd (call c f s)) = log s ++ [c].
Proof. unfold call. destruct (f (doc s)) as [[m|x] d]; reflexivity. Qed.

Lemma call_log_eq {A} (c : Call Range) (f : Doc -> HostResult Doc A) s r s' :
  call c f s = (r, s') -> log s' = log s ++ [c].
Proof. intros E. pose proof (call_log c f s) as L. now rewrite E in L. Qed.

(** A host call throws host errors only. *)
Lemma call_throws {A} (c : Call Range) (f : Doc -> HostResult Doc A) s e s' :
  call c f s = (inl e, s') -> exists m, e = HostError m.
Proof.
  unfold call. destruct (f (doc s)) as [[m|x] d]; intros E; inversion E.
  now exists m.
Qed.

Lemma tracked_log (c : Ctx) : log (tracked c) = log c ++ [CTrackRevisions true].
Proof.
  unfold tracked, try_ignore, document_setTrackRevisions.
  pose proof (call_log (CTrackRevisions true) (host_setTrackRevisions true) c) as L.
  destruct (call _ _ c) as [[e|[]] s']; exact L.
Qed.

Lemma highlighted_log (op : WordOperation) (found : Range) (c : Ctx) :
  log (highlighted op found c)
  = log c ++ (if highlight op then [CHighlight found "yellow"] else []).
Proof.
  unfold highlighted. destruct (highlight op).
  - unfold try_ignore, font_setHighlightColor.
    pose proof (call_log (CHighlight found "yellow")
                  (host_setHighlightColor found "yellow") c) as L.
    destruct (call _ _ c) as [[e|[]] s']; exact L.
  - now rewrite app_nil_r.
Qed.

(** The first step of [applyOperationToWord] never throws. *)
Lemma apply_start (k : unit -> Eff Ctx unit) (c : Ctx) :
  bind (try_ignore (document_setTrackRevisions true)) k c = k tt (tracked c).
Proof. apply bind_ok. apply try_ignore_ok. Qed.

Section Emits.

Variable P : Call Range -> Prop.

Lemma emits_ret {A} (x : A) : emits P (ret (S := Ctx) x).
Proof.
  intros s. split.
  - exists []. cbn. split; [now rewrite app_nil_r|constructor].
  - cbn. discriminate.
Qed.

Lemma emits_call {A} (c : Call Range) (f : Doc -> HostResult Doc A) :
  P c -> emits P (call c f).
Proof.
  intros Pc s. split.
  - exists [c]. split; [apply call_log|]. repeat constructor. exact Pc.
  - intros e E. destruct (call c f s) as [r s'] eqn:C. cbn in E. subst r.
    eapply call_throws. exact C.
Qed.

Lemma emits_bind {A B} (m : Eff Ctx A) (k : A -> Eff Ctx B) :
  emits P m -> (forall x, emits P (k x)) -> emits P (bind m k).
Proof.
  intros Hm Hk s. unfold bind. destruct (Hm s) as [[l [L Pl]] E].
  destruct (m s) as [[e|x] s']; cbn in *.
  - split; [now exists l|]. intros e' E'. apply E. congruence.
  - destruct (Hk x s') as [[l' [L' Pl']] E']. split.
    + exists (l ++ l'). split; [now rewrite L', L, app_assoc|].
      apply Forall_app. now split.
    + exact E'.
Qed.

Lemma emits_try_ignore (m : Eff Ctx unit) : emits P m -> emits P (try_ignore m).
Proof.
  intros Hm s. unfold try_ignore. destruct (Hm s) as [L _].
  destruct (m s) as [[e|x] s']; cbn in *; (split; [exact L|discriminate]).
Qed.

Lemma emits_getSelection : emits P document_getSelection.
Proof.
  intros s. split; [|discriminate]. exists []. cbn.
  split; [now rewrite app_nil_r|constructor].
Qed.

Lemma emits_commentOn (r : Range) (op : WordOperation) :
  (forall t, P (CInsertComment r t)) -> emits P (commentOn r op).
Proof.
  intros Pc. unfold commentOn. destruct (comment op) as [cm|]; [|apply emits_ret].
  destruct (body cm) as [b|]; [|apply emits_ret].
  destruct (Js.truthy_str b); [apply emits_call, Pc|apply emits_ret].
Qed.

(** What follows the search of a [comment_on_quote] operation. *)
Lemma emits_after_search (op : WordOperation) (items : list Range) :
  P CSync ->
  (forall r color, P (CHighlight r color)) ->
  (forall r t, P (CInsertComment r t)) ->
  emits P
    (context_sync ;;
     (match items with
      | found :: _ =>
          (if highlight op
           then try_ignore (font_setHighlightColor found "yellow")
           else ret tt) ;;
          commentOn found op
      | [] => ret tt
      end) ;;
     context_sync).
Proof.
  intros Ps Ph Pc.
  apply emits_bind; [now apply emits_call|intros _].
  apply emits_bind; [|intros _; now apply emits_call].
  destruct items as [|found others]; [apply emits_ret|].
  apply emits_bind; [|intros _; apply emits_commentOn, Pc].
  destruct (highlight op); [apply emits_try_ignore, emits_call, Ph|apply emits_ret].
Qed.

End Emits.

(** [applyOperationToWord] only adds host calls to the log, and it throws
    nothing but what a host call throws. *)
Lemma apply_emits (op : WordOperation) :
  emits (fun _ => True) (applyOperationToWord op).
Proof.
  unfold applyOperationToWord.
  apply emits_bind; [now apply emits_try_ignore, emits_call|intros _].
  apply emits_bind; [apply emits_getSelection|intros range].
  apply emits_bind.
  - repeat match goal with |- context [if ?b then _ else _] => destruct b end;
      (now apply emits_call) || apply emits_ret.
  - intros _. destruct (String.eqb (type op) "comment_on_quote").
    + cbv zeta. destruct (negb _); [now apply emits_call|].
      apply emits_bind; [now apply emits_call|intros items].
      now apply emits_after_search.
    + apply emits_bind; [now apply emits_commentOn|intros _; now apply emits_call].
Qed.

(** The calls of the comment step. *)
Lemma commentOn_log (r : Range) (op : WordOperation) (c : Ctx) :
  log (snd (commentOn r op c)) = log c ++ commentCalls r op.
Proof.
  unfold commentOn, commentCalls. destruct (comment op) as [cm|].
  2: { cbn. now rewrite app_nil_r. }
  destruct (body cm) as [b|].
  2: { cbn. now rewrite app_nil_r. }
  destruct (Js.truthy_str b).
  - apply call_log.
  - cbn. now rewrite app_nil_r.
Qed.

(** The optional highlight never throws. *)
Lemma highlight_step (op : WordOperation) (found : Range) (c : Ctx) :
  (if highlight op
   then try_ignore (font_setHighlightColor found "yellow")
   else ret tt) c = (inr tt, highlighted op found c).
Proof.
  unfold highlighted. destruct (highlight op); [apply try_ignore_ok|reflexivity].
Qed.

End ApplierFacts.

(** ** Operations of kind [comment_on_quote] *)

Section CommentOnQuote.

Context {H : Host}.

(** The run of a [comment_on_quote] operation once revision marking has been
    attempted. *)
Lemma apply_comment_on_quote (op : WordOperation) (c : Ctx) :
  type op = "comment_on_quote" ->
  applyOperationToWord op c
  = (if negb (Js.truthy_str (searchedQuote op)) then context_sync
     else
       items <- range_search (selectionOf (tracked c)) (searchedQuote op)
                  searchOptions ;;
       context_sync ;;
       (match items with
        | found :: _ =>
            (if highlight op
             then try_ignore (font_setHighlightColor found "yellow")
             else ret tt) ;;
            commentOn found op
        | [] => ret tt
        end) ;;
       context_sync) (tracked c).
Proof.
  intros T. unfold applyOperationToWord. rewrite apply_start, T. cbn.
  unfold searchedQuote, selectionOf, searchOptions.
  destruct (negb _); reflexivity.
Qed.

Lemma truthy_str_empty (s : string) : Js.truthy_str s = false <-> s = "".
Proof.
  unfold Js.truthy_str. destruct (String.eqb_spec s ""); cbn; split; congruence.
Qed.

Lemma truthy_str_nonempty (s : string) : Js.truthy_str s = true <-> s <> "".
Proof.
  unfold Js.truthy_str. destruct (String.eqb_spec s ""); cbn; split; congruence.
Qed.


End CommentOnQuote.


Section CommentOnQuoteMatch.

Context {H : Host}.

(** The run of a [comment_on_quote] operation whose search found something:
    what is left is the comment on the first item and the synchronization. *)
Lemma apply_comment_on_quote_found (op : WordOperation) (c c1 c2 : Ctx)
  (found : Range) (others : list Range) :
  type op = "comment_on_quote" ->
  searchedQuote op <> "" ->
  range_search (selectionOf (tracked c)) (searchedQuote op) searchOptions
    (tracked c) = (inr (found :: others), c1) ->
  context_sync c1 = (inr tt, c2) ->
  applyOperationToWord op c
  = (commentOn found op ;; context_sync) (highlighted op found c2).
Proof.
  intros T Q F S1. rewrite (apply_comment_on_quote op c T).
  apply truthy_str_nonempty in Q. rewrite Q. cbn.
  rewrite (bind_ok _ _ _ _ _ F), (bind_ok _ _ _ _ _ S1).
  unfold bind at 1 2. rewrite highlight_step. reflexivity.
Qed.

(** The log after the comment on [r] and the synchronization. *)
Lemma comment_then_sync_log (r : Range) (op : WordOperation) (c : Ctx) :
  exists tail,
    log (snd ((commentOn r op ;; context_sync) c))
    = log c ++ commentCalls r op ++ tail
    /\ (tail = [] \/ tail = [CSync]).
Proof.
  pose proof (commentOn_log r op c) as L. unfold bind.
  destruct (commentOn r op c) as [[e|[]] c'] eqn:E; cbn in L.
  - exists []. split; [|now left]. cbn. now rewrite L, app_nil_r.
  - exists [CSync]. split; [|now right]. unfold context_sync.
    rewrite call_log, L, <- app_assoc. reflexivity.
Qed.

(** The log of a [comment_on_quote] operation whose search found something. *)
Lemma comment_on_quote_found_log (op : WordOperation) (c c1 c2 : Ctx)
  (found : Range) (others : list Range) :
  type op = "comment_on_quote" ->
  searchedQuote op <> "" ->
  range_search (selectionOf (tracked c)) (searchedQuote op) searchOptions
    (tracked c) = (inr (found :: others), c1) ->
  context_sync c1 = (inr tt, c2) ->
  exists tail,
    log (snd (applyOperationToWord op c))
    = log c
      ++ [CTrackRevisions true;
          CSearch (selectionOf (tracked c)) (searchedQuote op) searchOptions;
          CSync]
      ++ highlightCalls op found ++ commentCalls found op ++ tail
    /\ (tail = [] \/ tail = [CSync]).
Proof.
  intros T Q F S1.
  rewrite (apply_comment_on_quote_found op c c1 c2 found others T Q F S1).
  destruct (comment_then_sync_log found op (highlighted op found c2))
    as [tail [L Tl]].
  exists tail. split; [|exact Tl].
  apply call_log_eq in F, S1.
  rewrite L, highlighted_log, S1, F, tracked_log, <- !app_assoc. reflexivity.
Qed.

(** C6 (amended).  The quote the code works with is the operation's quote
    trimmed of the white space around it, [(op.quote || "").trim()].  For
    every [comment_on_quote] operation: when the trimmed quote is empty the
    run searches nothing, its calls being the attempt to turn revision
    marking on and one synchronization; when it is not empty, the trimmed
    quote is searched with [matchCase] and [matchWholeWord] off, in the
    range of the current selection and in no other range (it is the only
    search of the run), and the first item the search returns is the range
    that is highlighted and commented: every later call that highlights or
    comments has that item as its range.  In particular, on the in-memory
    document, the quote "Confidentiality" is found in a selection that
    contains "confidentiality". *)
Theorem comment_on_quote_searches_selection (op : WordOperation) (c : Ctx) :
  type op = "comment_on_quote" ->
  (searchedQuote op = "" ->
   log (snd (applyOperationToWord op c))
   = log c ++ [CTrackRevisions true; CSync])
  /\ (searchedQuote op <> "" ->
      (exists rest,
         log (snd (applyOperationToWord op c))
         = log c ++ CTrackRevisions true
             :: CSearch (selectionOf (tracked c)) (searchedQuote op)
                  {| matchCase := false; matchWholeWord := false |}
             :: rest
         /\ Forall (fun x => is_search x = false) rest)
      /\ (forall found others c1 c2,
            range_search (selectionOf (tracked c)) (searchedQuote op)
              searchOptions (tracked c) = (inr (found :: others), c1) ->
            context_sync c1 = (inr tt, c2) ->
            exists tail,
              log (snd (applyOperationToWord op c))
              = log c
                ++ [CTrackRevisions true;
                    CSearch (selectionOf (tracked c)) (searchedQuote op)
                      searchOptions;
                    CSync]
                ++ highlightCalls op found ++ commentCalls found op ++ tail
              /\ (tail = [] \/ tail = [CSync])))
  /\ (let r := applyOperationToWord (H := Mem.host) Sample.confidentiality
                 (Mem.start Sample.clause) in
      fst r = inr tt /\ Mem.highlights (doc (snd r)) = [(4, 15, "yellow")]).
Proof.
  intros T. split; [|split].
  - intros Q. rewrite (apply_comment_on_quote op c T).
    apply truthy_str_empty in Q. rewrite Q. cbn [negb].
    unfold context_sync. rewrite call_log, tracked_log, <- app_assoc.
    reflexivity.
  - intros Q. split.
    + rewrite (apply_comment_on_quote op c T).
      pose proof Q as Q'. apply truthy_str_nonempty in Q'. rewrite Q'. cbn.
      destruct (range_search (selectionOf (tracked c)) (searchedQuote op)
                  searchOptions (tracked c)) as [[e|items] c1] eqn:F.
      * rewrite (bind_err _ _ _ _ _ F). exists []. cbn. apply call_log_eq in F.
        split; [|constructor].
        rewrite F, tracked_log, <- app_assoc. reflexivity.
      * rewrite (bind_ok _ _ _ _ _ F).
        destruct (emits_after_search (fun x => is_search x = false) op items
                    eq_refl (fun _ _ => eq_refl) (fun _ _ => eq_refl) c1)
          as [[l [L Pl]] _].
        exists l. apply call_log_eq in F. split; [|exact Pl].
        rewrite L, F, tracked_log, <- !app_assoc. reflexivity.
    + intros found others c1 c2 F S1.
      now apply comment_on_quote_found_log
        with (others := others) (c1 := c1) (c2 := c2).
  - split; reflexivity.
Qed.

End CommentOnQuoteMatch.

(** The quote "Confidentiality" on the sample clause. *)
Lemma comment_on_quote_searches_selection_witness :
  type Sample.confidentiality = "comment_on_quote"
  /\ searchedQuote Sample.confidentiality <> ""
  /\ exists tail,
       log (snd (applyOperationToWord Sample.confidentiality
                   (Mem.start Sample.clause)))
       = [CTrackRevisions true; CSearch (0, 26) "Confidentiality" searchOptions;
          CSync; CHighlight (4, 15) "yellow"] ++ tail
       /\ (tail = [] \/ tail = [CSync]).
Proof.
  split; [reflexivity|]. split; [discriminate|].
  destruct (comment_on_quote_searches_selection Sample.confidentiality
              (Mem.start Sample.clause) eq_refl) as [_ [F _]].
  destruct F as [_ F]; [discriminate|].
  exact (F (4, 15) [] _ _ eq_refl eq_refl).
Defined.

(** C6, as stated, fails on quotes with white space around them: the quote
    is not what is searched.  In "terminal term x" the quote " term " occurs
    once, at offset 8; the code searches "term" and comments its first
    occurrence, the head of "terminal" at offset 0.  And the quote of three
    spaces, which is not empty and occurs in "x   y" at offset 1, is not
    searched at all. *)
Lemma padded_quote_is_not_what_is_searched :
  (let op := mkOp "comment_on_quote" None (Some " term ") None false
               (Some (mkComment None (Some "defined term"))) in
   let d := Mem.open "terminal term x" in
   let r := applyOperationToWord op (Mem.start d) in
   quote op <> Some ""
   /\ Mem.searchIn (0, 15) " term " searchOptions d = [(8, 6)]
   /\ fst r = inr tt
   /\ log (snd r)
      = [CTrackRevisions true; CSearch (0, 15) "term" searchOptions; CSync;
         CInsertComment (0, 4) "defined term"; CSync]
   /\ Mem.comments (doc (snd r)) = [(0, 4, "defined term")])
  /\ (let op := mkOp "comment_on_quote" None (Some "   ") None true
                  (Some (mkComment None (Some "spacing"))) in
      let d := Mem.open "x   y" in
      let r := applyOperationToWord op (Mem.start d) in
      quote op <> Some ""
      /\ Mem.searchIn (0, 5) "   " searchOptions d = [(1, 3)]
      /\ fst r = inr tt
      /\ log (snd r) = [CTrackRevisions true; CSync]
      /\ Mem.comments (doc (snd r)) = []
      /\ Mem.highlights (doc (snd r)) = []).
Proof.
  split; cbv zeta; (split; [discriminate|]); vm_compute; repeat split.
Qed.

Section CommentText.

Context {H : Host}.

Lemma commentCalls_present (r : Range) (op : WordOperation) (cm : Comment)
  (b : string) :
  comment op = Some cm -> body cm = Some b -> present (body cm) ->
  commentCalls r op = [CInsertComment r (commentText (title cm) b)].
Proof.
  intros C B P. unfold commentCalls. rewrite C, B.
  unfold present in P. rewrite B in P. cbn in P. now rewrite P.
Qed.

Lemma commentCalls_absent (r : Range) (op : WordOperation) :
  ~ present (commentBody op) -> commentCalls r op = [].
Proof.
  unfold present, commentBody, commentCalls. intros N.
  destruct (comment op) as [cm|]; [|reflexivity].
  destruct (body cm) as [b|]; [|reflexivity].
  cbn in N. destruct (Js.truthy_str b); [now destruct N|reflexivity].
Qed.

(** The text of a comment, by cases on the title. *)
Lemma commentText_cases (t : option string) (b : string) :
  (forall s, t = Some s -> present t -> commentText t b = s +:+ ": " +:+ b)
  /\ (~ present t -> commentText t b = b).
Proof.
  unfold present, commentText. split.
  - intros s -> P. cbn in P. now rewrite P.
  - intros N. destruct t as [s|]; [|reflexivity]. cbn in N.
    destruct (Js.truthy_str s); [now destruct N|reflexivity].
Qed.


End CommentText.


(** ** Operations of the other kinds *)

Section OtherKinds.

Context {H : Host}.

(** The run of an operation of one of the three text kinds. *)
Lemma apply_insert (op : WordOperation) (loc : InsertLocation) (c : Ctx) :
  location_of (type op) = Some loc ->
  applyOperationToWord op c
  = (range_insertText (selectionOf (tracked c)) (new_text op) loc ;;
     commentOn (selectionOf (tracked c)) op ;;
     context_sync) (tracked c).
Proof.
  intros L. unfold applyOperationToWord. rewrite apply_start.
  unfold location_of in L. destruct op as [t nt q sv hl cm]. cbn in *.
  destruct (String.eqb_spec t "replace_selection") as [->|_];
    [injection L as <-; reflexivity|].
  destruct (String.eqb_spec t "insert_after_selection") as [->|_];
    [injection L as <-; reflexivity|].
  destruct (String.eqb_spec t "insert_before_selection") as [->|_];
    [injection L as <-; reflexivity|discriminate].
Qed.

Lemma commentCalls_no_insertText (r : Range) (op : WordOperation) :
  List.filter is_insertText (commentCalls r op) = [].
Proof.
  unfold commentCalls. destruct (comment op) as [cm|]; [|reflexivity].
  destruct (body cm) as [b|]; [|reflexivity].
  destruct (Js.truthy_str b); reflexivity.
Qed.

(** The run of an operation of an unknown kind. *)
Lemma apply_unknown (op : WordOperation) (c : Ctx) :
  known_kind (type op) = false ->
  applyOperationToWord op c
  = (commentOn (selectionOf (tracked c)) op ;; context_sync) (tracked c).
Proof.
  intros K. unfold applyOperationToWord. rewrite apply_start.
  unfold known_kind in K. cbn in K.
  repeat (apply orb_false_elim in K; destruct K as [? K]).
  repeat match goal with E : String.eqb _ _ = false |- _ => rewrite E; clear E end.
  reflexivity.
Qed.

(** What [applyOperationToWord] throws was thrown by a host call. *)
Lemma apply_throws (op : WordOperation) (c c' : Ctx) (e : exn) :
  applyOperationToWord op c = (inl e, c') -> exists m, e = HostError m.
Proof.
  intros E. destruct (apply_emits op c) as [_ X]. apply X. now rewrite E.
Qed.


End OtherKinds.


Section InsertKinds.

Context {H : Host}.

(** C1 (amended).  For every operation of kind [replace_selection],
    [insert_after_selection] or [insert_before_selection], whatever its
    [new_text] (null and absent included), apply does not validate the
    payload: after the attempt to turn revision marking on, it calls the
    host's [insertText] on the selection with [new_text] as it is, at the
    location of the kind; it succeeds once the host calls succeed, and
    whatever it throws was thrown by a host call. *)
Theorem insert_kinds_pass_new_text_to_host (op : WordOperation)
  (loc : InsertLocation) (c : Ctx) :
  location_of (type op) = Some loc ->
  (exists rest,
     log (snd (applyOperationToWord op c))
     = log c ++ CTrackRevisions true
         :: CInsertText (selectionOf (tracked c)) (new_text op) loc :: rest)
  /\ (forall c1 c2 c3,
        range_insertText (selectionOf (tracked c)) (new_text op) loc (tracked c)
        = (inr tt, c1) ->
        commentOn (selectionOf (tracked c)) op c1 = (inr tt, c2) ->
        context_sync c2 = (inr tt, c3) ->
        applyOperationToWord op c = (inr tt, c3))
  /\ (forall e c', applyOperationToWord op c = (inl e, c') ->
                   exists m, e = HostError m).
Proof.
  intros L. split; [|split].
  - rewrite (apply_insert op loc c L).
    destruct (range_insertText (selectionOf (tracked c)) (new_text op) loc
                (tracked c)) as [[e|[]] c1] eqn:Ins.
    + rewrite (bind_err _ _ _ _ _ Ins). exists []. cbn. apply call_log_eq in Ins.
      rewrite Ins, tracked_log, <- app_assoc. reflexivity.
    + rewrite (bind_ok _ _ _ _ _ Ins).
      destruct (emits_bind (fun _ => True)
                  (commentOn (selectionOf (tracked c)) op)
                  (fun _ => context_sync)
                  (emits_commentOn _ _ op (fun _ => I))
                  (fun _ => emits_call _ CSync host_sync I) c1)
        as [[l [Ll _]] _].
      exists l. apply call_log_eq in Ins.
      rewrite Ll, Ins, tracked_log, <- !app_assoc. reflexivity.
  - intros c1 c2 c3 Ins C S1.
    rewrite (apply_insert op loc c L), (bind_ok _ _ _ _ _ Ins),
      (bind_ok _ _ _ _ _ C). exact S1.
  - intros e c'. apply apply_throws.
Qed.

End InsertKinds.

(** A replacement whose text is null, on the in-memory document: the run
    reaches the host, succeeds and the selected text is gone. *)
Lemma insert_kinds_pass_new_text_to_host_witness :
  location_of (type Sample.null_replace) = Some replace
  /\ exists rest,
       log (snd (applyOperationToWord Sample.null_replace
                   (Mem.start Sample.dated)))
       = CTrackRevisions true :: CInsertText (3, 12) None replace :: rest.
Proof.
  split; [reflexivity|].
  destruct (insert_kinds_pass_new_text_to_host Sample.null_replace replace
              (Mem.start Sample.dated) eq_refl) as [[rest R] _].
  exists rest. exact R.
Defined.

(** C1, as stated, fails: a [replace_selection] operation whose [new_text]
    is null is not rejected.  On the in-memory document the run returns
    success and the document has changed. *)
Lemma null_new_text_is_applied :
  type Sample.null_replace = "replace_selection"
  /\ new_text Sample.null_replace = None
  /\ (let r := applyOperationToWord Sample.null_replace (Mem.start Sample.dated) in
      fst r = inr tt
      /\ Mem.text Sample.dated = "on today's date."
      /\ Mem.text (doc (snd r)) = "on .").
Proof. repeat split. Qed.

(** ** Batches of operations *)

Section Batches.

Context {H : Host}.

(** A loop whose body throws at some element leaves the elements after it
    alone. *)
Lemma forOf_stops {S A} (f : A -> Eff S unit) (pre post : list A) (x : A)
  (s sk s' : S) (e : exn) :
  forOf pre f s = (inr tt, sk) ->
  f x sk = (inl e, s') ->
  forOf (pre ++ x :: post) f s = (inl e, s').
Proof.
  revert s. induction pre as [|y pre IH]; intros s P F; cbn in *.
  - inversion P; subst. now rewrite (bind_err _ _ _ _ _ F).
  - unfold bind in P |- *. destruct (f y s) as [[e'|[]] s1]; [discriminate|].
    now apply IH.
Qed.

Lemma Word_run_throws (op : WordOperation) (p p' : Panel) (e : exn) :
  Word_run (applyOperationToWord op) p = (inl e, p') ->
  (exists m, e = HostError m) /\ exists l, log (ctx p') = log (ctx p) ++ l.
Proof.
  unfold Word_run. destruct (apply_emits op (ctx p)) as [[l [L _]] E].
  destruct (applyOperationToWord op (ctx p)) as [r c'].
  intros X. inversion X; subst. cbn in *. split; [now apply E|now exists l].
Qed.

End Batches.

Section Sequencing.

Context {H : Host}.

Lemma ends_sync : ends_with_sync context_sync.
Proof.
  intros s s' E. exists []. apply call_log_eq in E. exact E.
Qed.

Lemma ends_bind {A} (m : Eff Ctx A) (k : A -> Eff Ctx unit) :
  emits (fun _ => True) m -> (forall x, ends_with_sync (k x)) ->
  ends_with_sync (bind m k).
Proof.
  intros Hm Hk s s'. unfold bind. destruct (Hm s) as [[l [L _]] _].
  destruct (m s) as [[e|x] s1]; [discriminate|]. cbn in L. intros E.
  destruct (Hk x s1 s' E) as [calls C]. exists (l ++ calls).
  now rewrite C, L, <- !app_assoc.
Qed.

(** A successful run of [applyOperationToWord] has ended with the host's
    synchronization. *)
Lemma apply_ends_with_sync (op : WordOperation) :
  ends_with_sync (applyOperationToWord op).
Proof.
  unfold applyOperationToWord.
  apply ends_bind; [now apply emits_try_ignore, emits_call|intros _].
  apply ends_bind; [apply emits_getSelection|intros range].
  apply ends_bind.
  - repeat match goal with |- context [if ?b then _ else _] => destruct b end;
      (now apply emits_call) || apply emits_ret.
  - intros _. destruct (String.eqb (type op) "comment_on_quote").
    + cbv zeta. destruct (negb _); [apply ends_sync|].
      apply ends_bind; [now apply emits_call|intros items].
      apply ends_bind; [now apply emits_call|intros _].
      apply ends_bind; [|intros _; apply ends_sync].
      destruct items as [|found others]; [apply emits_ret|].
      apply emits_bind; [|intros _; now apply emits_commentOn].
      destruct (highlight op);
        [now apply emits_try_ignore, emits_call|apply emits_ret].
    + apply ends_bind; [now apply emits_commentOn|intros _; apply ends_sync].
Qed.

(** A loop that succeeds has applied its operations in sequence. *)
Lemma forOf_sequenced (ops : list WordOperation) (p p' : Panel) :
  forOf ops (fun o => Word_run (applyOperationToWord o)) p = (inr tt, p') ->
  Sequenced ops p p'.
Proof.
  revert p. induction ops as [|op rest IH]; intros p E; cbn in E.
  - inversion E. constructor.
  - unfold bind in E.
    destruct (Word_run (applyOperationToWord op) p) as [[e|[]] p1] eqn:R;
      [discriminate|].
    assert (A : applyOperationToWord op (ctx p) = (inr tt, ctx p1)).
    { unfold Word_run in R.
      destruct (applyOperationToWord op (ctx p)) as [r c1].
      inversion R; subst. reflexivity. }
    destruct (apply_ends_with_sync op _ _ A) as [calls C].
    apply Sequenced_cons with (p1 := p1) (calls := calls); auto.
Qed.

(** The operations of a response reach [apiRequest]'s result only. *)
Lemma apiRequest_with_operations (f : Request -> string + Response)
  (ops : list WordOperation) (path : string) (options : RequestInit)
  (p : Panel) :
  apiRequest (with_operations f ops) path options p
  = match apiRequest f path options p with
    | (inr j, p') => (inr (mkJson (detail j) (Some ops) (access_token j)), p')
    | (inl e, p') => (inl e, p')
    end.
Proof.
  unfold apiRequest, with_operations. cbv zeta.
  match goal with |- context [f ?r] => destruct (f r) as [m|res] end;
    [reflexivity|].
  unfold res_ok. cbn.
  destruct (negb _); destruct (res_json res) as [m|j]; reflexivity.
Qed.

End Sequencing.

Section BatchFailure.

Context {H : Host}.

Variable fetch : Request -> string + Response.

(** C2 (amended).  For every batch of the proofread flow in which operation
    k is the first to fail, the error is a host error, operations 1..k-1
    have been applied in sequence and remain applied (the flow ends in the
    state the failed run of operation k left, which extends the state
    reached after operation k-1, and nothing is undone), and operations
    k+1..N are not attempted: the loop stops at the failure, whose message
    becomes the status. *)
Theorem batch_stops_at_first_failure (p p1 p2 pk p' : Panel) (text : string)
  (resp : Json) (pre post : list WordOperation) (op : WordOperation) (e : exn) :
  Word_run readSelectionText
    (snd (setStatus "Proofreading selection (calling API)..." p))
  = (inr text, p1) ->
  Js.trim text <> "" ->
  proofreadSelection fetch text p1 = (inr resp, p2) ->
  operations_or_empty resp = pre ++ op :: post ->
  forOf pre (fun o => Word_run (applyOperationToWord o)) p2 = (inr tt, pk) ->
  Word_run (applyOperationToWord op) pk = (inl e, p') ->
  proofread fetch p
  = snd (setStatus ("❌ Proofread failed: " +:+ message_of e) p')
  /\ ctx (proofread fetch p) = ctx p'
  /\ Sequenced pre p2 pk
  /\ (exists l, log (ctx p') = log (ctx pk) ++ l)
  /\ (exists m, e = HostError m).
Proof.
  intros R T F O Pre Fail.
  assert (E : proofread fetch p
              = snd (setStatus ("❌ Proofread failed: " +:+ message_of e) p')).
  { unfold proofread, handler.
    rewrite (bind_ok _ _ p tt
               (snd (setStatus "Proofreading selection (calling API)..." p)))
      by reflexivity.
    unfold try_catch. rewrite (bind_ok _ _ _ _ _ R).
    rewrite (proj2 (truthy_str_nonempty _) T). cbn [negb].
    rewrite (bind_ok _ _ _ _ _ F). cbv zeta. rewrite O.
    replace (length (pre ++ op :: post) =? 0)%nat with false
      by (destruct pre; reflexivity).
    rewrite (bind_err _ _ _ _ _
               (forOf_stops _ pre post op p2 pk p' e Pre Fail)).
    reflexivity. }
  destruct (Word_run_throws op pk p' e Fail) as [M L].
  split; [exact E|]. split; [now rewrite E|].
  split; [now apply forOf_sequenced|]. split; [exact L|exact M].
Qed.

End BatchFailure.

(** A batch of three on a host that rejects a null text: the second
    operation fails. *)
Lemma batch_stops_at_first_failure_witness :
  let fetch :=
    Sample.server [Sample.first_comment; Sample.null_replace;
                   Sample.third_comment] in
  let p := proofread fetch (Sample.panel (Mem.strict Sample.agreement)) in
  status p = "❌ Proofread failed: InvalidArgument"
  /\ Mem.comments (doc (ctx p)) = [(4, 4, "first")].
Proof.
  cbv zeta.
  set (fetch := Sample.server _).
  set (p := Sample.panel _).
  pose (r1 := Word_run readSelectionText
                (snd (setStatus "Proofreading selection (calling API)..." p))).
  pose (r2 := proofreadSelection fetch (Mem.text Sample.agreement) (snd r1)).
  pose (r3 := forOf [Sample.first_comment]
                (fun o => Word_run (applyOperationToWord o)) (snd r2)).
  pose (r4 := Word_run (applyOperationToWord Sample.null_replace) (snd r3)).
  assert (E1 : r1 = (inr (Mem.text Sample.agreement), snd r1))
    by (apply run_ok; vm_compute; reflexivity).
  assert (E2 : r2
               = (inr (mkJson None
                         (Some [Sample.first_comment; Sample.null_replace;
                                Sample.third_comment]) None), snd r2))
    by (apply run_ok; vm_compute; reflexivity).
  assert (E3 : r3 = (inr tt, snd r3))
    by (apply run_ok; vm_compute; reflexivity).
  assert (E4 : r4 = (inl (HostError "InvalidArgument"), snd r4))
    by (apply run_err; vm_compute; reflexivity).
  assert (T : Js.trim (Mem.text Sample.agreement) <> "")
    by (vm_compute; discriminate).
  destruct (batch_stops_at_first_failure fetch p (snd r1) (snd r2) (snd r3)
              (snd r4) _ _ [Sample.first_comment] [Sample.third_comment]
              Sample.null_replace _ E1 T E2 eq_refl E3 E4) as [E _].
  rewrite E. vm_compute. split; reflexivity.
Defined.

(** C2, as stated, fails: in a batch of three whose second operation fails
    with a host error, the third operation is not attempted.  The log ends
    with the failing call of the second operation, the status reports the
    failure, and the third operation, run from the state reached, would
    have attached its comment. *)
Lemma failed_operation_ends_the_batch :
  let fetch :=
    Sample.server [Sample.first_comment; Sample.null_replace;
                   Sample.third_comment] in
  let p := proofread fetch (Sample.panel (Mem.strict Sample.agreement)) in
  status p = "❌ Proofread failed: InvalidArgument"
  /\ log (ctx p)
     = [CLoadText (0, 40); CSync;
        CTrackRevisions true; CSearch (0, 40) "Term" searchOptions; CSync;
        CInsertComment (4, 4) "first"; CSync;
        CTrackRevisions true; CInsertText (0, 40) None replace]
  /\ Mem.comments (doc (ctx p)) = [(4, 4, "first")]
  /\ Mem.comments
       (doc (snd (applyOperationToWord Sample.third_comment (ctx p))))
     = [(4, 4, "first"); (33, 6, "third")].
Proof. repeat split. Qed.

Section BatchOrder.

Context {H : Host}.

(** Only the first operation of the answer matters to the improve-writing
    flow. *)
Lemma runImproveWriting_first (f : Request -> string + Response)
  (op : WordOperation) (rest : list WordOperation) (p : Panel) :
  runImproveWriting (with_operations f (op :: rest)) p
  = runImproveWriting (with_operations f [op]) p.
Proof.
  unfold runImproveWriting, handler, improveWriting, bind, try_catch, get.
  cbv beta iota.
  destruct (setStatus "Improving writing (calling API)..." p) as [[e|[]] p0];
    [reflexivity|].
  destruct (Word_run readSelectionText p0) as [[e|t] p1]; [reflexivity|].
  destruct (negb (Js.truthy_str (Js.trim t))); [reflexivity|].
  rewrite !apiRequest_with_operations.
  destruct (apiRequest f _ _ p1) as [[e|j] p2]; reflexivity.
Qed.

(** Only the first operation of the answer matters to the draft-clause
    flow. *)
Lemma draftClauseClick_first (f : Request -> string + Response)
  (op : WordOperation) (rest : list WordOperation) (p : Panel) :
  draftClauseClick (with_operations f (op :: rest)) p
  = draftClauseClick (with_operations f [op]) p.
Proof.
  unfold draftClauseClick, handler, draftClause, bind, try_catch, get.
  cbv beta iota.
  destruct (setStatus "Drafting clause (calling API)..." p) as [[e|[]] p0];
    [reflexivity|].
  destruct (useSelectionAsContext p0).
  - destruct (Word_run readSelectionText p0) as [[e|t] p1]; [reflexivity|].
    cbn [ret]. cbv beta iota.
    destruct (negb (Js.truthy_str (Js.trim (clauseRequest p0)))); [reflexivity|].
    rewrite !apiRequest_with_operations.
    destruct (apiRequest f _ _ p1) as [[e|j] p2]; reflexivity.
  - cbn [ret]. cbv beta iota.
    destruct (negb (Js.truthy_str (Js.trim (clauseRequest p0)))); [reflexivity|].
    rewrite !apiRequest_with_operations.
    destruct (apiRequest f _ _ p0) as [[e|j] p2]; reflexivity.
Qed.

(** The improve-writing flow applies the first operation of the answer:
    the document it leaves is the one the run of that operation leaves,
    whether the run succeeds or throws. *)
Lemma runImproveWriting_applies_first (f : Request -> string + Response)
  (q q1 q2 : Panel) (text : string) (resp : Json) (op : WordOperation)
  (rest : list WordOperation) :
  Word_run readSelectionText
    (snd (setStatus "Improving writing (calling API)..." q))
  = (inr text, q1) ->
  Js.trim text <> "" ->
  improveWriting f text (Js.or_undefined (improveInstructions q1)) q1
  = (inr resp, q2) ->
  operations resp = Some (op :: rest) ->
  ctx (runImproveWriting f q) = snd (applyOperationToWord op (ctx q2)).
Proof.
  intros R T F O. unfold runImproveWriting, handler.
  rewrite (bind_ok _ _ q tt
             (snd (setStatus "Improving writing (calling API)..." q)))
    by reflexivity.
  unfold try_catch. rewrite (bind_ok _ _ _ _ _ R).
  rewrite (proj2 (truthy_str_nonempty _) T). cbn [negb].
  rewrite (bind_ok _ _ q1 q1 q1) by reflexivity.
  rewrite (bind_ok _ _ _ _ _ F). unfold first_operation. rewrite O.
  unfold bind, Word_run.
  destruct (applyOperationToWord op (ctx q2)) as [[e|[]] c']; reflexivity.
Qed.

(** The draft-clause flow applies the first operation of the answer. *)
Lemma draftClauseClick_applies_first (f : Request -> string + Response)
  (q q1 q2 : Panel) (contextText : option string) (resp : Json)
  (op : WordOperation) (rest : list WordOperation) :
  Js.trim (clauseRequest q) <> "" ->
  (if useSelectionAsContext q
   then exists text,
          Word_run readSelectionText
            (snd (setStatus "Drafting clause (calling API)..." q))
          = (inr text, q1)
          /\ contextText = Js.or_undefined (Js.trim text)
   else q1 = snd (setStatus "Drafting clause (calling API)..." q)
        /\ contextText = None) ->
  draftClause f (clauseRequest q) contextText (Js.or_undefined (clauseStyle q))
    q1 = (inr resp, q2) ->
  operations resp = Some (op :: rest) ->
  ctx (draftClauseClick f q) = snd (applyOperationToWord op (ctx q2)).
Proof.
  intros T C F O. unfold draftClauseClick, handler.
  rewrite (bind_ok _ _ q tt
             (snd (setStatus "Drafting clause (calling API)..." q)))
    by reflexivity.
  set (q0 := snd (setStatus "Drafting clause (calling API)..." q)) in *.
  unfold try_catch. rewrite (bind_ok _ _ q0 q0 q0) by reflexivity.
  change (useSelectionAsContext q0) with (useSelectionAsContext q).
  change (clauseRequest q0) with (clauseRequest q).
  change (clauseStyle q0) with (clauseStyle q).
  assert (K : (if useSelectionAsContext q
               then text <- Word_run readSelectionText ;;
                    ret (Js.or_undefined (Js.trim text))
               else ret None) q0 = (inr contextText, q1)).
  { destruct (useSelectionAsContext q).
    - destruct C as [text [R ->]]. now rewrite (bind_ok _ _ _ _ _ R).
    - destruct C as [-> ->]. reflexivity. }
  rewrite (bind_ok _ _ _ _ _ K).
  rewrite (proj2 (truthy_str_nonempty _) T). cbn [negb].
  rewrite (bind_ok _ _ _ _ _ F). unfold first_operation. rewrite O.
  unfold bind, Word_run.
  destruct (applyOperationToWord op (ctx q2)) as [[e|[]] c']; reflexivity.
Qed.

Variable fetch : Request -> string + Response.


End BatchOrder.



(** ** Requests to the server *)

Section Requests.

Context {H : Host}.

(** The failure of [apiRequest] on a response that is not ok. *)
Lemma apiRequest_not_ok (res : Response) (path : string)
  (options : RequestInit) (p : Panel) :
  res_ok res = false ->
  exists p',
    apiRequest (answering res) path options p
    = (inl (Error (failure_message res)), p')
    /\ forall res', apiRequest (answering res') path options p
                    = (fst (apiRequest (answering res') path options p), p').
Proof.
  intros N. unfold apiRequest, answering. cbv zeta. rewrite N. cbn [negb].
  eexists. split; [reflexivity|]. intros res'.
  destruct (negb (res_ok res')); [reflexivity|].
  destruct (res_json res'); reflexivity.
Qed.


End Requests.



(** ** The credential *)

Section Credential.

Variable saveAsync_status : gmap string string -> Auth.AsyncResult.

Lemma getToken_after_set (t : string) (s : Auth.RoamingSettings) :
  Auth.getToken (snd (Auth.saveToken saveAsync_status t s)) = Js.or_undefined t.
Proof.
  unfold Auth.saveToken, Auth.saveAsync, Auth.roaming_set, bind. cbn.
  destruct (saveAsync_status _); unfold Auth.getToken; cbn;
    now rewrite lookup_insert_eq.
Qed.

Lemma getToken_after_remove (s : Auth.RoamingSettings) :
  Auth.getToken (snd (Auth.clearToken saveAsync_status s)) = None.
Proof.
  unfold Auth.clearToken, Auth.saveAsync, Auth.roaming_remove, bind. cbn.
  destruct (saveAsync_status _); unfold Auth.getToken; cbn;
    now rewrite lookup_delete_eq.
Qed.


End Credential.



(** ** Reading the selection *)

Section SelectionReader.

Context {H : Host}.

(** The text read is the host's text of the selection range, as it is. *)
Lemma readSelectionText_verbatim (c c1 : Ctx) (text : string) :
  readSelectionText c = (inr text, c1) ->
  text = host_text (selectionOf c) (doc c1)
  /\ log c1 = log c ++ [CLoadText (selectionOf c); CSync].
Proof.
  unfold readSelectionText, document_getSelection, range_load_text, range_text,
    context_sync, bind, call, selectionOf. cbn.
  destruct (host_sync (doc c)) as [[m|[]] d]; intros E; inversion E; subst.
  cbn. split; [reflexivity|]. now rewrite <- app_assoc.
Qed.

Lemma Word_run_read (c1 : Ctx) (text : string) (p : Panel) :
  readSelectionText (ctx p) = (inr text, c1) ->
  Word_run readSelectionText p = (inr text, set_ctx c1 p).
Proof. intros E. unfold Word_run. now rewrite E. Qed.

Variable fetch : Request -> string + Response.

(** C9 (amended).  The read of the selection returns the host's text of the
    selection range verbatim (nothing is trimmed or altered), and this is
    what the "Get selection" action stores.  In the improve-writing and
    proofread flows, if the captured selection is empty (or blank), the
    client refuses to proceed: the status is the warning and no request is
    sent.  The draft-clause flow uses the selection as optional context
    only: with an empty selection and a clause request it still sends its
    request, without context text. *)
Theorem selection_read_and_guard (p : Panel) (text : string) (c1 : Ctx) :
  readSelectionText (ctx p) = (inr text, c1) ->
  (text = host_text (selectionOf (ctx p)) (doc c1)
   /\ selection (getSelection p) = text)
  /\ (Js.trim text = "" ->
      (status (runImproveWriting fetch p) = "⚠️ Please select some text first"
       /\ sent (runImproveWriting fetch p) = sent p)
      /\ (status (proofread fetch p) = "⚠️ Please select some text first"
          /\ sent (proofread fetch p) = sent p)
      /\ (useSelectionAsContext p = true ->
          Js.trim (clauseRequest p) <> "" ->
          exists req,
            sent (draftClauseClick fetch p) = sent p ++ [req]
            /\ req_body (init req)
               = DraftBody (clauseRequest p) None
                   (Js.or_undefined (clauseStyle p)))).
Proof.
  intros R. split; [split|].
  - apply (readSelectionText_verbatim _ _ _ R).
  - unfold getSelection, handler.
    rewrite (bind_ok _ _ p tt (snd (setStatus "Reading selection..." p)))
      by reflexivity.
    unfold try_catch.
    rewrite (bind_ok _ _ _ _ _
               (Word_run_read c1 text
                  (snd (setStatus "Reading selection..." p)) R)).
    reflexivity.
  - intros B. apply truthy_str_empty in B. split; [|split].
    + unfold runImproveWriting, handler.
      rewrite (bind_ok _ _ p tt
                 (snd (setStatus "Improving writing (calling API)..." p)))
        by reflexivity.
      unfold try_catch.
      rewrite (bind_ok _ _ _ _ _
                 (Word_run_read c1 text
                    (snd (setStatus "Improving writing (calling API)..." p)) R)).
      rewrite B. split; reflexivity.
    + unfold proofread, handler.
      rewrite (bind_ok _ _ p tt
                 (snd (setStatus "Proofreading selection (calling API)..." p)))
        by reflexivity.
      unfold try_catch.
      rewrite (bind_ok _ _ _ _ _
                 (Word_run_read c1 text
                    (snd (setStatus "Proofreading selection (calling API)..." p))
                    R)).
      rewrite B. split; reflexivity.
    + intros U Q. apply truthy_str_nonempty in Q.
      unfold draftClauseClick, handler.
      rewrite (bind_ok _ _ p tt
                 (snd (setStatus "Drafting clause (calling API)..." p)))
        by reflexivity.
      set (p0 := snd (setStatus "Drafting clause (calling API)..." p)).
      assert (R0 : (text0 <- Word_run readSelectionText ;;
                    ret (Js.or_undefined (Js.trim text0))) p0
                   = (inr None, set_ctx c1 p0)).
      { rewrite (bind_ok _ _ _ _ _ (Word_run_read c1 text p0 R)).
        unfold Js.or_undefined. now rewrite B. }
      unfold try_catch.
      rewrite (bind_ok _ _ p0 p0 p0) by reflexivity.
      change (useSelectionAsContext p0) with (useSelectionAsContext p).
      change (clauseRequest p0) with (clauseRequest p).
      change (clauseStyle p0) with (clauseStyle p).
      rewrite U, (bind_ok _ _ _ _ _ R0), Q. cbn [negb].
      unfold draftClause, apiRequest, bind. cbv zeta.
      eexists. split.
      * destruct (fetch _) as [m|res]; [reflexivity|].
        destruct (negb (res_ok res)); [reflexivity|].
        destruct (res_json res) as [m|j]; [reflexivity|].
        destruct (first_operation j) as [op|]; [|reflexivity].
        unfold Word_run.
        destruct (applyOperationToWord op _) as [[e|[]] c2]; reflexivity.
      * reflexivity.
Qed.

End SelectionReader.

(** Nothing selected: the text read is the empty string, the improve-writing
    flow warns and sends nothing. *)
Lemma selection_read_and_guard_witness :
  let p := Sample.drafting_panel in
  let fetch := Sample.server [Sample.effective_date] in
  fst (readSelectionText (ctx p)) = inr ""
  /\ selection (getSelection p) = ""
  /\ status (runImproveWriting fetch p) = "⚠️ Please select some text first"
  /\ sent (runImproveWriting fetch p) = [].
Proof.
  cbv zeta.
  edestruct (selection_read_and_guard
               (Sample.server [Sample.effective_date]) Sample.drafting_panel)
    as [[_ S] G]; [reflexivity|].
  destruct (G eq_refl) as [[W N] _].
  split; [reflexivity|]. split; [exact S|]. split; [exact W|exact N].
Defined.

(** C9, as stated, fails for the draft-clause flow: it sends the selection
    text as context, and with nothing selected it does not refuse to
    proceed.  It sends its request, without context text, and applies the
    answer. *)
Lemma draft_clause_proceeds_without_selection :
  let p := Sample.drafting_panel in
  let p' := draftClauseClick (Sample.server [Sample.effective_date]) p in
  useSelectionAsContext p = true
  /\ fst (readSelectionText (ctx p)) = inr ""
  /\ map (fun r => req_body (init r)) (sent p')
     = [DraftBody "termination for convenience" None
          (Some "US English, formal, concise")]
  /\ status p' = "✅ Clause inserted (tracked if enabled)"
  /\ Mem.text (doc (ctx p')) = "Whereas the Effective Datethe parties agree.".
Proof. vm_compute. repeat split. Qed.

(** * Further properties of the code *)

(** ** The applier *)

Section ApplierMore.

Context {H : Host}.

(** An operation is of the quote kind, of a text kind or of no known kind. *)
Lemma kind_cases (op : WordOperation) :
  type op = "comment_on_quote"
  \/ (exists loc, location_of (type op) = Some loc)
  \/ known_kind (type op) = false.
Proof.
  unfold location_of, known_kind. cbn.
  destruct (String.eqb_spec (type op) "replace_selection"); [right; left; eauto|].
  destruct (String.eqb_spec (type op) "insert_after_selection");
    [right; left; eauto|].
  destruct (String.eqb_spec (type op) "insert_before_selection");
    [right; left; eauto|].
  destruct (String.eqb_spec (type op) "comment_on_quote"); [now left|].
  now right; right.
Qed.

Lemma text_kind_not_quote (op : WordOperation) (loc : InsertLocation) :
  location_of (type op) = Some loc -> type op <> "comment_on_quote".
Proof. intros L E. rewrite E in L. discriminate L. Qed.

Lemma unknown_kind_not_quote (op : WordOperation) :
  known_kind (type op) = false -> type op <> "comment_on_quote".
Proof. intros K E. rewrite E in K. discriminate K. Qed.

(** The log after a comment and a synchronization that succeeded. *)
Lemma comment_then_sync_ok (r : Range) (op : WordOperation) (c c' : Ctx) :
  (commentOn r op ;; context_sync) c = (inr tt, c') ->
  log c' = log c ++ commentCalls r op ++ [CSync].
Proof.
  unfold bind. pose proof (commentOn_log r op c) as L.
  destruct (commentOn r op c) as [[e|[]] c1]; [discriminate|]. cbn in L.
  intros S1. apply call_log_eq in S1. now rewrite S1, L, <- app_assoc.
Qed.

(** X1.  For an operation of a text kind whose host calls succeed, the calls
    of the run are, in this order: the attempt to turn revision marking on,
    the insertion on the selection range, the comment on that same range
    when the operation has a comment with a non-empty body, and one
    synchronization.  The quote and the highlight flag play no part. *)
Theorem text_kinds_comment_the_selection (op : WordOperation)
  (loc : InsertLocation) (c c1 c2 c3 : Ctx) :
  location_of (type op) = Some loc ->
  range_insertText (selectionOf (tracked c)) (new_text op) loc (tracked c)
  = (inr tt, c1) ->
  commentOn (selectionOf (tracked c)) op c1 = (inr tt, c2) ->
  context_sync c2 = (inr tt, c3) ->
  applyOperationToWord op c = (inr tt, c3)
  /\ log c3
     = log c
       ++ [CTrackRevisions true;
           CInsertText (selectionOf (tracked c)) (new_text op) loc]
       ++ commentCalls (selectionOf (tracked c)) op ++ [CSync].
Proof.
  intros L Ins C S1. split.
  - rewrite (apply_insert op loc c L), (bind_ok _ _ _ _ _ Ins),
      (bind_ok _ _ _ _ _ C). exact S1.
  - pose proof (commentOn_log (selectionOf (tracked c)) op c1) as LC.
    rewrite C in LC. cbn in LC.
    apply call_log_eq in Ins, S1.
    rewrite S1, LC, Ins, tracked_log, <- !app_assoc. reflexivity.
Qed.

End ApplierMore.

(** A replacement with a titled comment, on the dated sample. *)
Lemma text_kinds_comment_the_selection_witness :
  location_of (type Demo.replace_with_comment) = Some replace
  /\ (let r := applyOperationToWord Demo.replace_with_comment
                 (Mem.start Sample.dated) in
      fst r = inr tt
      /\ log (snd r)
         = [CTrackRevisions true; CInsertText (3, 12) (Some "must") replace;
            CInsertComment (3, 12) "Style: Prefer must"; CSync]).
Proof.
  split; [reflexivity|]. cbv zeta.
  edestruct (text_kinds_comment_the_selection Demo.replace_with_comment replace
               (Mem.start Sample.dated)) as [R L];
    [reflexivity|reflexivity|reflexivity|reflexivity|].
  rewrite R. split; [reflexivity|exact L].
Defined.

(** ** Where a run stops *)

Section Failure.

Context {H : Host}.

Lemma stops_ret {A} (x : A) : stops_at_failure (ret (S := Ctx) x).
Proof. intros s e s' E. discriminate E. Qed.

Lemma stops_try_ignore (m : Eff Ctx unit) : stops_at_failure (try_ignore m).
Proof.
  intros s e s'. unfold try_ignore. destruct (m s) as [[e'|[]] s1]; discriminate.
Qed.

Lemma stops_getSelection : stops_at_failure document_getSelection.
Proof. intros s e s' E. discriminate E. Qed.

(** A host call that is not swallowed stops where it throws. *)
Lemma stops_perform (c : Call Range) :
  swallowed c = false -> stops_at_failure (perform c).
Proof.
  intros W s e s' E. exists [], c, s. rewrite app_nil_r. now repeat split.
Qed.

Lemma stops_search (r : Range) (q : string) (o : SearchOptions) :
  stops_at_failure (range_search r q o).
Proof.
  intros s e s' E. exists [], (CSearch r q o), s. rewrite app_nil_r.
  repeat split. cbn. now rewrite (bind_err _ _ _ _ _ E).
Qed.

Lemma stops_bind {A B} (m : Eff Ctx A) (k : A -> Eff Ctx B) :
  emits (fun _ => True) m -> stops_at_failure m ->
  (forall x, stops_at_failure (k x)) -> stops_at_failure (bind m k).
Proof.
  intros Em Sm Sk s e s'. unfold bind. destruct (Em s) as [[l [L _]] _].
  destruct (m s) as [[e1|x] s1] eqn:M; intros E.
  - inversion E; subst. now apply (Sm s).
  - destruct (Sk x s1 e s' E) as [l' [c [s0 [L0 [W P]]]]].
    exists (l ++ l'), c, s0. cbn in L. rewrite L0, L, <- app_assoc.
    now repeat split.
Qed.

Lemma stops_commentOn (r : Range) (op : WordOperation) :
  stops_at_failure (commentOn r op).
Proof.
  unfold commentOn. destruct (comment op) as [cm|]; [|apply stops_ret].
  destruct (body cm) as [b|]; [|apply stops_ret].
  destruct (Js.truthy_str b); [|apply stops_ret].
  exact (stops_perform (CInsertComment r (commentText (title cm) b)) eq_refl).
Qed.

Lemma stops_sync : stops_at_failure context_sync.
Proof. exact (stops_perform CSync eq_refl). Qed.

Lemma stops_insertText (r : Range) (t : option string) (loc : InsertLocation) :
  stops_at_failure (range_insertText r t loc).
Proof. exact (stops_perform (CInsertText r t loc) eq_refl). Qed.

(** X2.  When a run of [applyOperationToWord] throws, it throws the error of
    a host call that is an insertion, a search, a comment or a
    synchronization (never the revision-marking or the highlight call,
    whose failures are swallowed), it ends in the state that call left, and
    it has made no host call after it. *)
Theorem apply_stops_at_the_failing_call (op : WordOperation) (c c' : Ctx)
  (e : exn) :
  applyOperationToWord op c = (inl e, c') ->
  exists l call c0,
    log c0 = log c ++ l
    /\ swallowed call = false
    /\ perform call c0 = (inl e, c')
    /\ log c' = log c ++ l ++ [call].
Proof.
  intros E.
  assert (S : stops_at_failure (applyOperationToWord op)).
  { unfold applyOperationToWord.
    apply stops_bind;
      [now apply emits_try_ignore, emits_call|apply stops_try_ignore|intros _].
    apply stops_bind; [apply emits_getSelection|apply stops_getSelection|].
    intros range. apply stops_bind.
    - repeat match goal with |- context [if ?b then _ else _] => destruct b end;
        (now apply emits_call) || apply emits_ret.
    - repeat match goal with |- context [if ?b then _ else _] => destruct b end;
        apply stops_insertText || apply stops_ret.
    - intros _. destruct (String.eqb (type op) "comment_on_quote").
      + cbv zeta. destruct (negb _); [apply stops_sync|].
        apply stops_bind; [now apply emits_call|apply stops_search|].
        intros items.
        apply stops_bind; [now apply emits_call|apply stops_sync|intros _].
        apply stops_bind; [| |intros _; apply stops_sync].
        * destruct items as [|found others]; [apply emits_ret|].
          apply emits_bind; [|intros _; now apply emits_commentOn].
          destruct (highlight op);
            [now apply emits_try_ignore, emits_call|apply emits_ret].
        * destruct items as [|found others]; [apply stops_ret|].
          apply stops_bind; [| |intros _; apply stops_commentOn].
          -- destruct (highlight op);
               [now apply emits_try_ignore, emits_call|apply emits_ret].
          -- destruct (highlight op); [apply stops_try_ignore|apply stops_ret].
      + apply stops_bind;
          [now apply emits_commentOn|apply stops_commentOn|
           intros _; apply stops_sync]. }
  destruct (S c e c' E) as [l [call [c0 [L [W P]]]]].
  exists l, call, c0. repeat split; try assumption.
  assert (LP : log c' = log c0 ++ [call]).
  { destruct call as [b|r|r t loc|r q o|r color|r t|]; cbn in P;
      try discriminate W; try discriminate P;
      try (now apply call_log_eq in P).
    unfold bind in P.
    destruct (range_search r q o c0) as [[e'|x] s1] eqn:F; [|discriminate].
    inversion P; subst. now apply call_log_eq in F. }
  now rewrite LP, L, <- app_assoc.
Qed.

End Failure.

(** On a host that rejects a null text, the replacement without text stops
    at the insertion: no comment, no synchronization. *)
Lemma apply_stops_at_the_failing_call_witness :
  let r := applyOperationToWord Sample.null_replace
             (Mem.start (Mem.strict Sample.dated)) in
  fst r = inl (HostError "InvalidArgument")
  /\ exists l call,
       swallowed call = false
       /\ log (snd r) = l ++ [call].
Proof.
  cbv zeta. split; [reflexivity|].
  destruct (apply_stops_at_the_failing_call Sample.null_replace
              (Mem.start (Mem.strict Sample.dated)) _ _ eq_refl)
    as [l [call [c0 [_ [W [_ L]]]]]].
  exists l, call. split; [exact W|exact L].
Defined.

(** ** What each kind of operation uses and calls *)

Section Kinds.

Context {H : Host}.

Lemma filter_none {A} (f : A -> bool) (l : list A) :
  Forall (fun x => f x = false) l -> List.filter f l = [].
Proof.
  induction 1 as [|x l Fx _ IH]; [reflexivity|]. cbn. now rewrite Fx.
Qed.

Lemma syncs_in_app (a b : list (Call Range)) :
  syncs_in (a ++ b) = syncs_in a + syncs_in b.
Proof. unfold syncs_in. now rewrite List.filter_app, length_app. Qed.

Lemma commentCalls_syncs (r : Range) (op : WordOperation) :
  syncs_in (commentCalls r op) = 0.
Proof.
  unfold commentCalls. destruct (comment op) as [cm|]; [|reflexivity].
  destruct (body cm) as [b|]; [|reflexivity].
  destruct (Js.truthy_str b); reflexivity.
Qed.

Lemma highlightCalls_syncs (op : WordOperation) (found : Range) :
  syncs_in (highlightCalls op found) = 0.
Proof. unfold highlightCalls. destruct (highlight op); reflexivity. Qed.

(** X3.  The fields an operation's kind does not use have no effect on its
    run: [severity] never has; [new_text] has none on a [comment_on_quote]
    operation; [quote] and [highlight] have none on an operation of any
    other kind. *)
Theorem unused_fields_have_no_effect (op : WordOperation) (c : Ctx) :
  (forall v, applyOperationToWord (with_severity v op) c
             = applyOperationToWord op c)
  /\ (type op = "comment_on_quote" ->
      forall v, applyOperationToWord (with_new_text v op) c
                = applyOperationToWord op c)
  /\ (type op <> "comment_on_quote" ->
      forall v h, applyOperationToWord (with_quote v h op) c
                  = applyOperationToWord op c).
Proof.
  destruct op as [t nt q sv hl cm]. cbn [type]. split; [|split].
  - reflexivity.
  - intros -> v. reflexivity.
  - intros N v h. unfold applyOperationToWord, with_quote. cbn.
    apply String.eqb_neq in N. now rewrite N.
Qed.

(** X4.  A run of [applyOperationToWord] that succeeds has made exactly two
    synchronization calls when the operation is a [comment_on_quote] with a
    non-empty searched quote, and exactly one otherwise. *)
Theorem syncs_of_a_successful_run (op : WordOperation) (c c' : Ctx) :
  applyOperationToWord op c = (inr tt, c') ->
  syncs_in (log c')
  = syncs_in (log c)
    + (if String.eqb (type op) "comment_on_quote"
          && Js.truthy_str (searchedQuote op)
       then 2 else 1).
Proof.
  intros E. destruct (kind_cases op) as [T | [[loc L] | K]].
  - rewrite T, String.eqb_refl. cbn [andb].
    destruct (Js.truthy_str (searchedQuote op)) eqn:Q.
    + apply truthy_str_nonempty in Q.
      pose proof E as E0. rewrite (apply_comment_on_quote op c T) in E0.
      rewrite (proj2 (truthy_str_nonempty _) Q) in E0. cbn [negb] in E0.
      unfold bind at 1 in E0.
      destruct (range_search _ _ _ (tracked c)) as [[e|items] c1] eqn:F;
        [discriminate|].
      unfold bind at 1 in E0.
      destruct (context_sync c1) as [[e|[]] c2] eqn:S1; [discriminate|].
      apply call_log_eq in F as LF. apply call_log_eq in S1 as L1.
      destruct items as [|found others].
      * unfold bind at 1 in E0. cbn in E0. apply call_log_eq in E0.
        rewrite E0, L1, LF, tracked_log, !syncs_in_app. cbn. lia.
      * rewrite (apply_comment_on_quote_found op c c1 c2 found others T Q F S1)
          in E.
        apply comment_then_sync_ok in E.
        rewrite E, highlighted_log, L1, LF, tracked_log, !syncs_in_app,
          commentCalls_syncs.
        fold (highlightCalls op found). rewrite highlightCalls_syncs. cbn. lia.
    + rewrite (apply_comment_on_quote op c T), Q in E. cbn [negb] in E.
      apply call_log_eq in E.
      rewrite E, tracked_log, !syncs_in_app. cbn. lia.
  - pose proof (text_kind_not_quote op loc L) as N.
    apply String.eqb_neq in N. rewrite N. cbn [andb].
    rewrite (apply_insert op loc c L) in E. unfold bind at 1 in E.
    destruct (range_insertText _ _ _ (tracked c)) as [[e|[]] c1] eqn:Ins;
      [discriminate|].
    apply comment_then_sync_ok in E. apply call_log_eq in Ins.
    rewrite E, Ins, tracked_log, !syncs_in_app, commentCalls_syncs. cbn. lia.
  - pose proof (unknown_kind_not_quote op K) as N.
    apply String.eqb_neq in N. rewrite N. cbn [andb].
    rewrite (apply_unknown op c K) in E. apply comment_then_sync_ok in E.
    rewrite E, tracked_log, !syncs_in_app, commentCalls_syncs. cbn. lia.
Qed.

(** X5.  Whatever the host answers, a [comment_on_quote] operation never
    inserts text, and an operation of any other kind never searches and
    never highlights. *)
Theorem kinds_keep_to_their_calls (op : WordOperation) (c : Ctx) :
  (type op = "comment_on_quote" ->
   List.filter is_insertText (log (snd (applyOperationToWord op c)))
   = List.filter is_insertText (log c))
  /\ (type op <> "comment_on_quote" ->
      List.filter is_search (log (snd (applyOperationToWord op c)))
      = List.filter is_search (log c)
      /\ List.filter is_highlight (log (snd (applyOperationToWord op c)))
         = List.filter is_highlight (log c)).
Proof.
  split.
  - intros T. rewrite (apply_comment_on_quote op c T).
    set (P := fun x : Call Range => is_insertText x = false).
    assert (E : exists l,
               log (snd ((if negb (Js.truthy_str (searchedQuote op))
                          then context_sync
                          else
                            items <- range_search (selectionOf (tracked c))
                                       (searchedQuote op) searchOptions ;;
                            context_sync ;;
                            (match items with
                             | found :: _ =>
                                 (if highlight op
                                  then try_ignore
                                         (font_setHighlightColor found "yellow")
                                  else ret tt) ;;
                                 commentOn found op
                             | [] => ret tt
                             end) ;;
                            context_sync) (tracked c)))
               = log (tracked c) ++ l /\ Forall P l).
    { destruct (negb _).
      - apply (emits_call P CSync host_sync eq_refl (tracked c)).
      - apply (emits_bind P); [now apply emits_call|intros items].
        now apply emits_after_search. }
    destruct E as [l [L Pl]].
    rewrite L, tracked_log, !List.filter_app, (filter_none _ l Pl). cbn.
    now rewrite !app_nil_r.
  - intros N.
    set (P := fun x : Call Range => is_search x = false /\ is_highlight x = false).
    assert (E : exists l,
               log (snd (applyOperationToWord op c)) = log (tracked c) ++ l
               /\ Forall P l).
    { destruct (kind_cases op) as [T | [[loc L] | K]]; [contradiction| |].
      - rewrite (apply_insert op loc c L).
        apply (emits_bind P); [now apply emits_call|intros _].
        apply (emits_bind P); [now apply emits_commentOn|intros _].
        now apply emits_call.
      - rewrite (apply_unknown op c K).
        apply (emits_bind P); [now apply emits_commentOn|intros _].
        now apply emits_call. }
    destruct E as [l [L Pl]].
    assert (Ps : Forall (fun x => is_search x = false) l)
      by exact (List.Forall_impl _ (fun x (Px : P x) => proj1 Px) Pl).
    assert (Ph : Forall (fun x => is_highlight x = false) l)
      by exact (List.Forall_impl _ (fun x (Px : P x) => proj2 Px) Pl).
    rewrite L, tracked_log, !List.filter_app, (filter_none _ l Ps),
      (filter_none _ l Ph). cbn. now rewrite !app_nil_r.
Qed.

End Kinds.

(** The sample comment, then the sample replacement: two synchronizations,
    then one. *)
Lemma syncs_of_a_successful_run_witness :
  syncs_in (log (snd (applyOperationToWord Sample.confirm_duration
                        (Mem.start Sample.agreement)))) = 2
  /\ syncs_in (log (snd (applyOperationToWord Sample.effective_date
                           (Mem.start Sample.dated)))) = 1.
Proof.
  split.
  - exact (syncs_of_a_successful_run Sample.confirm_duration
             (Mem.start Sample.agreement) _ eq_refl).
  - exact (syncs_of_a_successful_run Sample.effective_date
             (Mem.start Sample.dated) _ eq_refl).
Defined.

(** A replacement that carries a quote and the highlight flag, on a document
    that contains the quote: nothing is searched or highlighted. *)
Lemma kinds_keep_to_their_calls_witness :
  let op := with_quote (Some "date") true Sample.effective_date in
  type op <> "comment_on_quote"
  /\ List.filter is_search
       (log (snd (applyOperationToWord op (Mem.start Sample.dated)))) = []
  /\ Mem.highlights (doc (snd (applyOperationToWord op (Mem.start Sample.dated))))
     = [].
Proof.
  cbv zeta. split; [discriminate|]. split; [|reflexivity].
  refine (proj1 (proj2 (kinds_keep_to_their_calls
                          (with_quote (Some "date") true Sample.effective_date)
                          (Mem.start Sample.dated)) _)).
  discriminate.
Defined.

(** The sample comment with a text added: the text is not inserted. *)
Lemma unused_fields_have_no_effect_witness :
  type Sample.confirm_duration = "comment_on_quote"
  /\ applyOperationToWord
       (with_new_text (Some "never inserted") Sample.confirm_duration)
       (Mem.start Sample.agreement)
     = applyOperationToWord Sample.confirm_duration (Mem.start Sample.agreement).
Proof.
  split; [reflexivity|].
  exact (proj1 (proj2 (unused_fields_have_no_effect Sample.confirm_duration
                         (Mem.start Sample.agreement)))
           eq_refl (Some "never inserted")).
Defined.

(** ** The handlers of the Word panel *)

Section Frames.

Context {H : Host}.

Lemma same_inputs_refl (p : Panel) : same_inputs p p.
Proof. now repeat split. Qed.

Lemma same_inputs_trans (p q r : Panel) :
  same_inputs p q -> same_inputs q r -> same_inputs p r.
Proof.
  unfold same_inputs. intros [A1 [A2 [A3 [A4 [A5 A6]]]]] [B1 [B2 [B3 [B4 [B5 B6]]]]].
  repeat split; congruence.
Qed.

Lemma keeps_ret {A} (x : A) : keeps 0 (ret (S := Panel) x).
Proof.
  intros p. split; [apply same_inputs_refl|]. exists []. cbn.
  split; [now rewrite app_nil_r|lia].
Qed.

Lemma keeps_get : keeps 0 (get (S := Panel)).
Proof.
  intros p. split; [apply same_inputs_refl|]. exists []. cbn.
  split; [now rewrite app_nil_r|lia].
Qed.

Lemma keeps_setStatus (t : string) : keeps 0 (setStatus t).
Proof.
  intros p. split; [now repeat split|]. exists []. cbn.
  split; [now rewrite app_nil_r|lia].
Qed.

Lemma keeps_setSelection (t : string) : keeps 0 (setSelection t).
Proof.
  intros p. split; [now repeat split|]. exists []. cbn.
  split; [now rewrite app_nil_r|lia].
Qed.

Lemma keeps_Word_run {A} (m : Eff Ctx A) : keeps 0 (Word_run m).
Proof.
  intros p. unfold Word_run. destruct (m (ctx p)) as [r c].
  split; [now repeat split|]. exists []. cbn.
  split; [now rewrite app_nil_r|lia].
Qed.

Lemma keeps_le (n n' : nat) {A} (m : Eff Panel A) :
  n <= n' -> keeps n m -> keeps n' m.
Proof.
  intros Le K p. destruct (K p) as [S [l [E L]]]. split; [exact S|].
  exists l. split; [exact E|lia].
Qed.

Lemma keeps_bind (n k : nat) {A B} (m : Eff Panel A) (f : A -> Eff Panel B) :
  keeps n m -> (forall x, keeps k (f x)) -> keeps (n + k) (bind m f).
Proof.
  intros Km Kf p. unfold bind. destruct (Km p) as [S [l [E L]]].
  destruct (m p) as [[e|x] p1]; cbn in *.
  - split; [exact S|]. exists l. split; [exact E|lia].
  - destruct (Kf x p1) as [S' [l' [E' L']]]. split.
    + eapply same_inputs_trans; eassumption.
    + exists (l ++ l'). rewrite E', E, <- app_assoc, length_app.
      split; [reflexivity|lia].
Qed.

Lemma keeps_try_catch (n k : nat) {A} (m : Eff Panel A)
  (h : exn -> Eff Panel A) :
  keeps n m -> (forall e, keeps k (h e)) -> keeps (n + k) (try_catch m h).
Proof.
  intros Km Kh p. unfold try_catch. destruct (Km p) as [S [l [E L]]].
  destruct (m p) as [[e|x] p1]; cbn in *.
  - destruct (Kh e p1) as [S' [l' [E' L']]]. split.
    + eapply same_inputs_trans; eassumption.
    + exists (l ++ l'). rewrite E', E, <- app_assoc, length_app.
      split; [reflexivity|lia].
  - split; [exact S|]. exists l. split; [exact E|lia].
Qed.

Lemma keeps_forOf {A} (l : list A) (f : A -> Eff Panel unit) :
  (forall x, keeps 0 (f x)) -> keeps 0 (forOf l f).
Proof.
  intros Kf. induction l as [|x l IH]; cbn; [apply keeps_ret|].
  apply (keeps_bind 0 0); [apply Kf|intros _; exact IH].
Qed.

Variable fetch : Request -> string + Response.

(** [apiRequest] records one request and touches nothing else. *)
Lemma apiRequest_frame (path : string) (options : RequestInit) (p : Panel) :
  snd (apiRequest fetch path options p)
  = set_sent
      (sent p
       ++ [mkRequest (API_BASE_URL +:+ path)
             (mkInit (method options)
                match Auth.getToken (roamingSettings p) with
                | Some t => <["Authorization" := "Bearer " +:+ t]> (headers options)
                | None => headers options
                end
                (req_body options))]) p.
Proof.
  unfold apiRequest. cbv zeta.
  destruct (fetch _) as [m|res]; [reflexivity|].
  destruct (negb (res_ok res)); [reflexivity|].
  destruct (res_json res); reflexivity.
Qed.

Lemma keeps_apiRequest (path : string) (options : RequestInit) :
  keeps 1 (apiRequest fetch path options).
Proof.
  intros p. rewrite apiRequest_frame. split; [now repeat split|].
  eexists. split; [reflexivity|]. cbn. lia.
Qed.

Lemma keeps_handler (n : nat) (m : Eff Panel unit) :
  keeps n m -> handler_keeps n (handler m).
Proof. intros K p. exact (K p). Qed.

Lemma keeps_applied (op : WordOperation) (t : string) :
  keeps 0 (Word_run (applyOperationToWord op) ;; setStatus t).
Proof.
  apply (keeps_bind 0 0); [apply keeps_Word_run|intros _; apply keeps_setStatus].
Qed.

(** X6.  No handler of the Word panel touches the roaming settings or the
    panel's inputs (the text to insert, the instructions, the clause request
    and style, the context switch).  "Get selection" and "Insert after
    selection" send no request; the improve-writing, proofread and
    draft-clause handlers send at most one, after those already sent. *)
Theorem handlers_keep_settings_and_inputs :
  handler_keeps 0 getSelection
  /\ handler_keeps 0 insertAfterSelection
  /\ handler_keeps 1 (runImproveWriting fetch)
  /\ handler_keeps 1 (proofread fetch)
  /\ handler_keeps 1 (draftClauseClick fetch).
Proof.
  split; [|split; [|split; [|split]]]; apply keeps_handler.
  - apply (keeps_bind 0 0); [apply keeps_setStatus|intros _].
    apply (keeps_try_catch 0 0); [|intros e; apply keeps_setStatus].
    apply (keeps_bind 0 0); [apply keeps_Word_run|intros text].
    apply (keeps_bind 0 0); [apply keeps_setSelection|intros _].
    apply keeps_setStatus.
  - apply (keeps_bind 0 0); [apply keeps_setStatus|intros _].
    apply (keeps_try_catch 0 0); [|intros e; apply keeps_setStatus].
    apply (keeps_bind 0 0); [apply keeps_get|intros q].
    apply (keeps_bind 0 0); [apply keeps_Word_run|intros _].
    apply keeps_setStatus.
  - apply (keeps_bind 0 1); [apply keeps_setStatus|intros _].
    apply (keeps_try_catch 1 0); [|intros e; apply keeps_setStatus].
    apply (keeps_bind 0 1); [apply keeps_Word_run|intros text].
    destruct (negb _); [apply (keeps_le 0 1); [lia|apply keeps_setStatus]|].
    apply (keeps_bind 0 1); [apply keeps_get|intros q].
    apply (keeps_bind 1 0); [apply keeps_apiRequest|intros resp].
    destruct (first_operation resp); [apply keeps_applied|apply keeps_setStatus].
  - apply (keeps_bind 0 1); [apply keeps_setStatus|intros _].
    apply (keeps_try_catch 1 0); [|intros e; apply keeps_setStatus].
    apply (keeps_bind 0 1); [apply keeps_Word_run|intros text].
    destruct (negb _); [apply (keeps_le 0 1); [lia|apply keeps_setStatus]|].
    apply (keeps_bind 1 0); [apply keeps_apiRequest|intros resp].
    cbv zeta. destruct (length _ =? 0)%nat; [apply keeps_setStatus|].
    apply (keeps_bind 0 0); [|intros _; apply keeps_setStatus].
    apply keeps_forOf. intros op. apply keeps_Word_run.
  - apply (keeps_bind 0 1); [apply keeps_setStatus|intros _].
    apply (keeps_try_catch 1 0); [|intros e; apply keeps_setStatus].
    apply (keeps_bind 0 1); [apply keeps_get|intros q].
    apply (keeps_bind 0 1).
    + destruct (useSelectionAsContext q); [|apply keeps_ret].
      apply (keeps_bind 0 0); [apply keeps_Word_run|intros t; apply keeps_ret].
    + intros contextText.
      destruct (negb _); [apply (keeps_le 0 1); [lia|apply keeps_setStatus]|].
      apply (keeps_bind 1 0); [apply keeps_apiRequest|intros resp].
      destruct (first_operation resp); [apply keeps_applied|apply keeps_setStatus].
Qed.

End Frames.

Section Flows.

Context {H : Host}.

Lemma try_catch_bind_ok {S A B} (m : Eff S A) (k : A -> Eff S B)
  (h : exn -> Eff S B) (s s' : S) (x : A) :
  m s = (inr x, s') -> try_catch (bind m k) h s = try_catch (k x) h s'.
Proof. intros E. unfold try_catch, bind. now rewrite E. Qed.

Lemma try_catch_bind_err {S A B} (m : Eff S A) (k : A -> Eff S B)
  (h : exn -> Eff S B) (s s' : S) (e : exn) :
  m s = (inl e, s') -> try_catch (bind m k) h s = h e s'.
Proof. intros E. unfold try_catch, bind. now rewrite E. Qed.

Lemma keeps_0_sent {A} (m : Eff Panel A) (p : Panel) :
  keeps 0 m -> sent (snd (m p)) = sent p.
Proof.
  intros K. destruct (K p) as [_ [l [E L]]]. destruct l; [|cbn in L; lia].
  now rewrite E, app_nil_r.
Qed.

(** The calls of the read of the selection, whatever its outcome. *)
Lemma readSelectionText_log (c : Ctx) :
  log (snd (readSelectionText c))
  = log c ++ [CLoadText (selectionOf c); CSync].
Proof.
  unfold readSelectionText, document_getSelection, range_load_text, range_text,
    context_sync, bind, call, selectionOf. cbn.
  destruct (host_sync (doc c)) as [[m|[]] d]; cbn; now rewrite <- app_assoc.
Qed.

Variable fetch : Request -> string + Response.

(** After a request, what a flow does sends nothing more. *)
Lemma sent_after_request (path : string) (options : RequestInit)
  (k : Json -> Eff Panel unit) (h : exn -> Eff Panel unit) (p : Panel) :
  (forall r, keeps 0 (k r)) -> (forall e, keeps 0 (h e)) ->
  sent (snd (try_catch (resp <- apiRequest fetch path options ;; k resp) h p))
  = sent (snd (apiRequest fetch path options p)).
Proof.
  intros Kk Kh. unfold try_catch, bind.
  destruct (apiRequest fetch path options p) as [[e|j] p1]; cbn.
  - apply (keeps_0_sent (h e) p1 (Kh e)).
  - pose proof (keeps_0_sent (k j) p1 (Kk j)) as E1.
    destruct (k j p1) as [[e|[]] p2]; cbn in *; [|exact E1].
    now rewrite (keeps_0_sent (h e) p2 (Kh e)).
Qed.

Lemma keeps_after_answer (t1 t2 : string) (resp : Json) :
  keeps 0
    (match first_operation resp with
     | Some op => Word_run (applyOperationToWord op) ;; setStatus t1
     | None => setStatus t2
     end).
Proof.
  destruct (first_operation resp); [apply keeps_applied|apply keeps_setStatus].
Qed.

(** X7.  The improve-writing and proofread flows send the selection text as
    it was read, white space around it included, although they test its
    trimmed form for emptiness; the draft-clause flow sends the trimmed
    selection as context, or no context when that is empty.  Each request
    is a POST to the flow's endpoint.  Instructions or a style that are the
    empty string are left out of the request; any other value, one made of
    white space only included, is sent as typed. *)
Theorem requests_carry_the_selection (p : Panel) (text : string) (c1 : Ctx) :
  readSelectionText (ctx p) = (inr text, c1) ->
  (Js.trim text <> "" ->
   (exists req,
      sent (runImproveWriting fetch p) = sent p ++ [req]
      /\ url req = "http://localhost:8001/api/v1/word/improve-writing"
      /\ method (init req) = Some "POST"
      /\ req_body (init req)
         = ImproveBody text (Js.or_undefined (improveInstructions p)))
   /\ (exists req,
         sent (proofread fetch p) = sent p ++ [req]
         /\ url req = "http://localhost:8001/api/v1/word/proofread"
         /\ method (init req) = Some "POST"
         /\ req_body (init req) = ProofreadBody text))
  /\ (useSelectionAsContext p = true ->
      Js.trim (clauseRequest p) <> "" ->
      exists req,
        sent (draftClauseClick fetch p) = sent p ++ [req]
        /\ url req = "http://localhost:8001/api/v1/word/draft-clause"
        /\ method (init req) = Some "POST"
        /\ req_body (init req)
           = DraftBody (clauseRequest p) (Js.or_undefined (Js.trim text))
               (Js.or_undefined (clauseStyle p))).
Proof.
  intros R. split.
  - intros T. apply truthy_str_nonempty in T. split.
    + unfold runImproveWriting, handler.
      rewrite (bind_ok _ _ p tt
                 (snd (setStatus "Improving writing (calling API)..." p)))
        by reflexivity.
      set (p0 := snd (setStatus "Improving writing (calling API)..." p)).
      rewrite (try_catch_bind_ok _ _ _ _ _ _ (Word_run_read c1 text p0 R)).
      rewrite T. cbn [negb].
      rewrite (try_catch_bind_ok _ _ _ (set_ctx c1 p0) (set_ctx c1 p0)
                 (set_ctx c1 p0)) by reflexivity.
      unfold improveWriting.
      rewrite sent_after_request;
        [|intros r; apply keeps_after_answer|intros e; apply keeps_setStatus].
      rewrite apiRequest_frame. eexists. split; [reflexivity|].
      repeat split.
    + unfold proofread, handler.
      rewrite (bind_ok _ _ p tt
                 (snd (setStatus "Proofreading selection (calling API)..." p)))
        by reflexivity.
      set (p0 := snd (setStatus "Proofreading selection (calling API)..." p)).
      rewrite (try_catch_bind_ok _ _ _ _ _ _ (Word_run_read c1 text p0 R)).
      rewrite T. cbn [negb]. unfold proofreadSelection.
      rewrite sent_after_request; [| |intros e; apply keeps_setStatus].
      * rewrite apiRequest_frame. eexists. split; [reflexivity|].
        repeat split.
      * intros r. cbv zeta.
        destruct (length _ =? 0)%nat; [apply keeps_setStatus|].
        apply (keeps_bind 0 0); [|intros _; apply keeps_setStatus].
        apply keeps_forOf. intros op. apply keeps_Word_run.
  - intros U Q. apply truthy_str_nonempty in Q.
    unfold draftClauseClick, handler.
    rewrite (bind_ok _ _ p tt
               (snd (setStatus "Drafting clause (calling API)..." p)))
      by reflexivity.
    set (p0 := snd (setStatus "Drafting clause (calling API)..." p)).
    assert (R0 : (text0 <- Word_run readSelectionText ;;
                  ret (Js.or_undefined (Js.trim text0))) p0
                 = (inr (Js.or_undefined (Js.trim text)), set_ctx c1 p0))
      by now rewrite (bind_ok _ _ _ _ _ (Word_run_read c1 text p0 R)).
    rewrite (try_catch_bind_ok _ _ _ p0 p0 p0) by reflexivity.
    change (useSelectionAsContext p0) with (useSelectionAsContext p).
    change (clauseRequest p0) with (clauseRequest p).
    change (clauseStyle p0) with (clauseStyle p).
    rewrite U, (try_catch_bind_ok _ _ _ _ _ _ R0), Q. cbn [negb].
    unfold draftClause.
    rewrite sent_after_request;
      [|intros r; apply keeps_after_answer|intros e; apply keeps_setStatus].
    rewrite apiRequest_frame. eexists. split; [reflexivity|].
    repeat split.
Qed.

End Flows.

(** A selection with white space around it: the improve-writing flow sends
    it untrimmed. *)
Lemma requests_carry_the_selection_witness :
  let p := Sample.panel Demo.padded in
  Js.trim "  shall not  " <> ""
  /\ map (fun r => req_body (init r))
       (sent (runImproveWriting (Sample.server [Sample.effective_date]) p))
     = [ImproveBody "  shall not  " None].
Proof.
  cbv zeta. split; [vm_compute; discriminate|].
  pose (r := readSelectionText (ctx (Sample.panel Demo.padded))).
  assert (E : r = (inr "  shall not  ", snd r))
    by (apply run_ok; vm_compute; reflexivity).
  destruct (requests_carry_the_selection (Sample.server [Sample.effective_date])
              (Sample.panel Demo.padded) _ _ E) as [I _].
  destruct I as [[req [S [_ [_ B]]]] _]; [vm_compute; discriminate|].
  rewrite S. cbn [map app Sample.panel sent]. now rewrite B.
Defined.

Section FlowOutcomes.

Context {H : Host}.

Variable fetch : Request -> string + Response.

(** X8.  In the improve-writing flow, once the selection has been read and
    is not blank: if the request fails, the status is the failure with the
    error's message; if the answer holds no operation, the status is "No
    operation returned".  In both cases the document is left as the read of
    the selection left it: the applier has not run. *)
Theorem improve_writing_without_operation (p : Panel) (text : string)
  (c1 : Ctx) :
  readSelectionText (ctx p) = (inr text, c1) ->
  Js.trim text <> "" ->
  let p1 := set_ctx c1 (snd (setStatus "Improving writing (calling API)..." p)) in
  let r := improveWriting fetch text (Js.or_undefined (improveInstructions p)) p1 in
  (forall e,
     fst r = inl e ->
     status (runImproveWriting fetch p)
     = "❌ Improve writing failed: " +:+ message_of e
     /\ ctx (runImproveWriting fetch p) = c1)
  /\ (forall resp,
        fst r = inr resp ->
        first_operation resp = None ->
        status (runImproveWriting fetch p) = "❌ No operation returned"
        /\ ctx (runImproveWriting fetch p) = c1).
Proof.
  intros R T p1 r. apply truthy_str_nonempty in T.
  assert (E : runImproveWriting fetch p
              = snd (try_catch
                       (resp <- improveWriting fetch text
                                  (Js.or_undefined (improveInstructions p)) ;;
                        match first_operation resp with
                        | None => setStatus "❌ No operation returned"
                        | Some op =>
                            Word_run (applyOperationToWord op) ;;
                            setStatus
                              "✅ Improve writing applied (tracked if enabled)"
                        end)
                       (fun e =>
                          setStatus
                            ("❌ Improve writing failed: " +:+ message_of e))
                       p1)).
  { unfold runImproveWriting, handler.
    rewrite (bind_ok _ _ p tt
               (snd (setStatus "Improving writing (calling API)..." p)))
      by reflexivity.
    rewrite (try_catch_bind_ok _ _ _ _ _ _
               (Word_run_read c1 text
                  (snd (setStatus "Improving writing (calling API)..." p)) R)).
    rewrite T. cbn [negb].
    now rewrite (try_catch_bind_ok _ _ _ p1 p1 p1) by reflexivity. }
  assert (C : ctx (snd r) = c1).
  { unfold r, improveWriting. now rewrite apiRequest_frame. }
  rewrite E. fold r. split.
  - intros e Fe. apply run_err in Fe.
    rewrite (try_catch_bind_err _ _ _ _ _ _ Fe). split; [reflexivity|exact C].
  - intros resp Fr N. apply run_ok in Fr.
    rewrite (try_catch_bind_ok _ _ _ _ _ _ Fr), N. split; [reflexivity|exact C].
Qed.

(** X9.  When every operation of a proofread batch has been applied, the
    status is "Added N comments" with N the number of operations of the
    batch, whether or not they attached a comment; with an empty batch the
    status is "No issues found". *)
Theorem proofread_reports_the_batch_length (p p1 p2 p3 : Panel) (text : string)
  (resp : Json) :
  Word_run readSelectionText
    (snd (setStatus "Proofreading selection (calling API)..." p))
  = (inr text, p1) ->
  Js.trim text <> "" ->
  proofreadSelection fetch text p1 = (inr resp, p2) ->
  forOf (operations_or_empty resp)
    (fun o => Word_run (applyOperationToWord o)) p2 = (inr tt, p3) ->
  status (proofread fetch p)
  = match operations_or_empty resp with
    | [] => "✅ No issues found"
    | ops => "✅ Added " +:+ Js.of_nat (length ops) +:+ " comments"
    end.
Proof.
  intros R T F L. unfold proofread, handler.
  rewrite (bind_ok _ _ p tt
             (snd (setStatus "Proofreading selection (calling API)..." p)))
    by reflexivity.
  rewrite (try_catch_bind_ok _ _ _ _ _ _ R).
  rewrite (proj2 (truthy_str_nonempty _) T). cbn [negb].
  rewrite (try_catch_bind_ok _ _ _ _ _ _ F). cbv zeta.
  destruct (operations_or_empty resp) as [|op rest] eqn:O.
  - reflexivity.
  - cbn [length Nat.eqb]. unfold try_catch.
    now rewrite (bind_ok _ _ _ _ _ L).
Qed.

(** X10.  "Insert after selection" inserts the panel's text between two line
    feeds after the selection and synchronizes, without any attempt to turn
    revision marking on.  If the insertion fails the status is the failure
    and no synchronization is made. *)
Theorem insertAfterSelection_calls (p : Panel) :
  let text :=
    Some (String (ascii_of_nat 10) (insertText p)
          +:+ String (ascii_of_nat 10) EmptyString) in
  let sel := selectionOf (ctx p) in
  (forall c1 c2,
     range_insertText sel text after (ctx p) = (inr tt, c1) ->
     context_sync c1 = (inr tt, c2) ->
     status (insertAfterSelection p) = "✅ Inserted"
     /\ ctx (insertAfterSelection p) = c2
     /\ log c2 = log (ctx p) ++ [CInsertText sel text after; CSync])
  /\ (forall e c1,
        range_insertText sel text after (ctx p) = (inl e, c1) ->
        status (insertAfterSelection p) = "❌ Failed: " +:+ message_of e
        /\ ctx (insertAfterSelection p) = c1
        /\ log c1 = log (ctx p) ++ [CInsertText sel text after]).
Proof.
  cbv zeta. unfold insertAfterSelection, handler.
  rewrite (bind_ok _ _ p tt (snd (setStatus "Inserting text..." p)))
    by reflexivity.
  set (p0 := snd (setStatus "Inserting text..." p)).
  rewrite (try_catch_bind_ok _ _ _ p0 p0 p0) by reflexivity.
  change (insertText p0) with (insertText p).
  split.
  - intros c1 c2 Ins S1.
    assert (W : Word_run
                  (range <- document_getSelection ;;
                   range_insertText range
                     (Some (String (ascii_of_nat 10) (insertText p)
                            +:+ String (ascii_of_nat 10) EmptyString)) after ;;
                   context_sync) p0 = (inr tt, set_ctx c2 p0)).
    { unfold Word_run. change (ctx p0) with (ctx p).
      unfold bind at 1. cbn [document_getSelection].
      fold (selectionOf (ctx p)).
      now rewrite (bind_ok _ _ _ _ _ Ins), S1. }
    rewrite (try_catch_bind_ok _ _ _ _ _ _ W).
    split; [reflexivity|]. split; [reflexivity|].
    apply call_log_eq in Ins, S1. now rewrite S1, Ins, <- app_assoc.
  - intros e c1 Ins.
    assert (W : Word_run
                  (range <- document_getSelection ;;
                   range_insertText range
                     (Some (String (ascii_of_nat 10) (insertText p)
                            +:+ String (ascii_of_nat 10) EmptyString)) after ;;
                   context_sync) p0 = (inl e, set_ctx c1 p0)).
    { unfold Word_run. change (ctx p0) with (ctx p).
      unfold bind at 1. cbn [document_getSelection].
      fold (selectionOf (ctx p)).
      now rewrite (bind_err _ _ _ _ _ Ins). }
    rewrite (try_catch_bind_err _ _ _ _ _ _ W).
    split; [reflexivity|]. split; [reflexivity|].
    now apply call_log_eq in Ins.
Qed.

(** X11.  "Get selection" makes two host calls, the load of the selection's
    text and the synchronization, whatever their outcome.  If the read
    fails, the status is the failure with the error's message and the
    selection shown stays as it was. *)
Theorem getSelection_failure (p : Panel) :
  log (ctx (getSelection p))
  = log (ctx p) ++ [CLoadText (selectionOf (ctx p)); CSync]
  /\ (forall e c1,
        readSelectionText (ctx p) = (inl e, c1) ->
        status (getSelection p) = "❌ Failed: " +:+ message_of e
        /\ selection (getSelection p) = selection p)
  /\ (forall text c1,
        readSelectionText (ctx p) = (inr text, c1) ->
        status (getSelection p) = "✅ Selection loaded").
Proof.
  unfold getSelection, handler.
  rewrite (bind_ok _ _ p tt (snd (setStatus "Reading selection..." p)))
    by reflexivity.
  set (p0 := snd (setStatus "Reading selection..." p)).
  pose proof (readSelectionText_log (ctx p)) as L.
  destruct (readSelectionText (ctx p)) as [[e|text] c1] eqn:R; cbn in L.
  - assert (W : Word_run readSelectionText p0 = (inl e, set_ctx c1 p0))
      by (unfold Word_run; change (ctx p0) with (ctx p); now rewrite R).
    rewrite (try_catch_bind_err _ _ _ _ _ _ W).
    split; [exact L|]. split; [|discriminate].
    intros e' c' E. inversion E; subst. split; reflexivity.
  - rewrite (try_catch_bind_ok _ _ _ _ _ _ (Word_run_read c1 text p0 R)).
    split; [exact L|]. split; [discriminate|].
    intros text' c' E. reflexivity.
Qed.

(** X12.  With a blank clause request the draft-clause flow sends no
    request.  When the selection is not used as context, nothing happens
    but the warning; when it is, the selection is read from the host
    first, and the warning follows if the read succeeds. *)
Theorem draft_clause_needs_a_request (p : Panel) :
  Js.trim (clauseRequest p) = "" ->
  sent (draftClauseClick fetch p) = sent p
  /\ (useSelectionAsContext p = false ->
      draftClauseClick fetch p
      = snd (setStatus "⚠️ Enter a clause request first" p))
  /\ (useSelectionAsContext p = true ->
      log (ctx (draftClauseClick fetch p))
      = log (ctx p) ++ [CLoadText (selectionOf (ctx p)); CSync]
      /\ forall text c1,
           readSelectionText (ctx p) = (inr text, c1) ->
           status (draftClauseClick fetch p)
           = "⚠️ Enter a clause request first").
Proof.
  intros B. apply truthy_str_empty in B.
  unfold draftClauseClick, handler.
  rewrite (bind_ok _ _ p tt
             (snd (setStatus "Drafting clause (calling API)..." p)))
    by reflexivity.
  set (p0 := snd (setStatus "Drafting clause (calling API)..." p)).
  rewrite (try_catch_bind_ok _ _ _ p0 p0 p0) by reflexivity.
  change (useSelectionAsContext p0) with (useSelectionAsContext p).
  change (clauseRequest p0) with (clauseRequest p).
  change (clauseStyle p0) with (clauseStyle p).
  rewrite B. cbn [negb].
  destruct (useSelectionAsContext p) eqn:U.
  - pose proof (readSelectionText_log (ctx p)) as L.
    destruct (readSelectionText (ctx p)) as [[e|text] c1] eqn:R; cbn in L.
    + assert (W : (text0 <- Word_run readSelectionText ;;
                   ret (Js.or_undefined (Js.trim text0))) p0
                  = (inl e, set_ctx c1 p0)).
      { apply bind_err. unfold Word_run. change (ctx p0) with (ctx p).
        now rewrite R. }
      rewrite (try_catch_bind_err _ _ _ _ _ _ W).
      split; [reflexivity|]. split; [discriminate|]. intros _.
      split; [exact L|discriminate].
    + assert (W : (text0 <- Word_run readSelectionText ;;
                   ret (Js.or_undefined (Js.trim text0))) p0
                  = (inr (Js.or_undefined (Js.trim text)), set_ctx c1 p0))
        by now rewrite (bind_ok _ _ _ _ _ (Word_run_read c1 text p0 R)).
      rewrite (try_catch_bind_ok _ _ _ _ _ _ W).
      split; [reflexivity|]. split; [discriminate|]. intros _.
      split; [exact L|reflexivity].
  - rewrite (try_catch_bind_ok _ _ _ p0 p0 None) by reflexivity.
    split; [reflexivity|]. split; [reflexivity|discriminate].
Qed.

End FlowOutcomes.

(** An unauthorized answer, then an answer without operations: the document
    holds the calls of the read only. *)
Lemma improve_writing_without_operation_witness :
  let p := Sample.panel Sample.agreement in
  Js.trim (Mem.text Sample.agreement) <> ""
  /\ status (runImproveWriting (answering (Sample.not_authenticated 401)) p)
     = "❌ Improve writing failed: Not authenticated"
  /\ status (runImproveWriting (Sample.server []) p) = "❌ No operation returned"
  /\ log (ctx (runImproveWriting (Sample.server []) p))
     = [CLoadText (0, 40); CSync].
Proof.
  cbv zeta.
  assert (T : Js.trim (Mem.text Sample.agreement) <> "")
    by (vm_compute; discriminate).
  split; [exact T|].
  pose (r := readSelectionText (ctx (Sample.panel Sample.agreement))).
  assert (R : r = (inr (Mem.text Sample.agreement), snd r))
    by (apply run_ok; vm_compute; reflexivity).
  split; [|split].
  - pose proof (improve_writing_without_operation
                  (answering (Sample.not_authenticated 401))
                  (Sample.panel Sample.agreement) _ _ R T) as W.
    cbv zeta in W. destruct W as [W _].
    destruct (W (Error "Not authenticated")) as [S _];
      [vm_compute; reflexivity|]. rewrite S. reflexivity.
  - pose proof (improve_writing_without_operation (Sample.server [])
                  (Sample.panel Sample.agreement) _ _ R T) as W.
    cbv zeta in W. destruct W as [_ W].
    destruct (W (mkJson None (Some []) None)) as [S _];
      [vm_compute; reflexivity|reflexivity|]. exact S.
  - pose proof (improve_writing_without_operation (Sample.server [])
                  (Sample.panel Sample.agreement) _ _ R T) as W.
    cbv zeta in W. destruct W as [_ W].
    destruct (W (mkJson None (Some []) None)) as [_ C];
      [vm_compute; reflexivity|reflexivity|]. rewrite C.
    vm_compute. reflexivity.
Defined.

(** A batch of one operation whose quote has no match: no comment is
    attached, and the status says one was added. *)
Lemma proofread_reports_the_batch_length_witness :
  let p := proofread (Sample.server [Sample.missing_quote])
             (Sample.panel Sample.agreement) in
  Js.trim (Mem.text Sample.agreement) <> ""
  /\ status p = "✅ Added 1 comments"
  /\ Mem.comments (doc (ctx p)) = [].
Proof.
  cbv zeta.
  assert (T : Js.trim (Mem.text Sample.agreement) <> "")
    by (vm_compute; discriminate).
  split; [exact T|]. split; [|vm_compute; reflexivity].
  set (fetch := Sample.server _).
  set (p := Sample.panel _).
  pose (r1 := Word_run readSelectionText
                (snd (setStatus "Proofreading selection (calling API)..." p))).
  pose (r2 := proofreadSelection fetch (Mem.text Sample.agreement) (snd r1)).
  pose (resp := mkJson None (Some [Sample.missing_quote]) None).
  pose (r3 := forOf (operations_or_empty resp)
                (fun o => Word_run (applyOperationToWord o)) (snd r2)).
  assert (E1 : r1 = (inr (Mem.text Sample.agreement), snd r1))
    by (apply run_ok; vm_compute; reflexivity).
  assert (E2 : r2 = (inr resp, snd r2))
    by (apply run_ok; vm_compute; reflexivity).
  assert (E3 : r3 = (inr tt, snd r3))
    by (apply run_ok; vm_compute; reflexivity).
  rewrite (proofread_reports_the_batch_length fetch p (snd r1) (snd r2)
             (snd r3) _ resp E1 T E2 E3).
  reflexivity.
Defined.

(** The panel's default text inserted after the selection. *)
Lemma insertAfterSelection_calls_witness :
  let p := insertAfterSelection (Sample.panel Sample.dated) in
  status p = "✅ Inserted"
  /\ log (ctx p)
     = [CInsertText (3, 12)
          (Some (String (ascii_of_nat 10) "Hello from Legal Assistant AI"
                 +:+ String (ascii_of_nat 10) EmptyString)) after;
        CSync].
Proof.
  cbv zeta.
  pose proof (insertAfterSelection_calls (Sample.panel Sample.dated)) as W.
  cbv zeta in W. destruct W as [W _].
  edestruct W as [S [C L]]; [reflexivity|reflexivity|].
  rewrite S, C. split; [reflexivity|exact L].
Defined.

(** "Get selection" on the dated sample. *)
Lemma getSelection_failure_witness :
  let p := getSelection (Sample.panel Sample.dated) in
  status p = "✅ Selection loaded"
  /\ log (ctx p) = [CLoadText (3, 12); CSync].
Proof.
  cbv zeta.
  destruct (getSelection_failure (Sample.panel Sample.dated)) as [L [_ S]].
  split; [|exact L].
  eapply S. reflexivity.
Defined.

(** The panel as first rendered has no clause request. *)
Lemma draft_clause_needs_a_request_witness :
  let p := Sample.panel Sample.agreement in
  Js.trim (clauseRequest p) = ""
  /\ sent (draftClauseClick (Sample.server [Sample.effective_date]) p) = []
  /\ status (draftClauseClick (Sample.server [Sample.effective_date]) p)
     = "⚠️ Enter a clause request first".
Proof.
  cbv zeta. split; [reflexivity|].
  destruct (draft_clause_needs_a_request (Sample.server [Sample.effective_date])
              (Sample.panel Sample.agreement) eq_refl) as [S [_ U]].
  split; [exact S|].
  destruct (U eq_refl) as [_ W]. eapply W. reflexivity.
Defined.

(** ** More on the requests and on the credential *)

Section RequestsMore.

Context {H : Host}.

Variable fetch : Request -> string + Response.

(** X13.  [apiRequest] sends one request, to the base URL followed by the
    path, with the method and the body of its options.  When a token is
    stored, the request carries it as "Bearer" authorization, replacing an
    [Authorization] header of the options; when none is stored the headers
    are those of the options.  The other headers are never changed, and
    nothing but the list of sent requests changes in the panel. *)
Theorem apiRequest_sends_the_token (path : string) (options : RequestInit)
  (p : Panel) :
  exists req,
    snd (apiRequest fetch path options p) = set_sent (sent p ++ [req]) p
    /\ url req = API_BASE_URL +:+ path
    /\ method (init req) = method options
    /\ req_body (init req) = req_body options
    /\ headers (init req) !! "Authorization"
       = match Auth.getToken (roamingSettings p) with
         | Some t => Some ("Bearer " +:+ t)
         | None => headers options !! "Authorization"
         end
    /\ (forall k, k <> "Authorization" ->
                  headers (init req) !! k = headers options !! k).
Proof.
  rewrite apiRequest_frame. eexists. split; [reflexivity|]. cbn.
  repeat split.
  - destruct (Auth.getToken (roamingSettings p)); [|reflexivity].
    apply lookup_insert_eq.
  - intros k N. destruct (Auth.getToken (roamingSettings p)); [|reflexivity].
    now apply lookup_insert_ne.
Qed.

(** X14.  [apiRequest] returns a body only when the answer to the request it
    sent is ok (a status from 200 to 299), and that body is the answer's
    JSON.  When it throws, the request has been sent all the same, and the
    message of what is thrown is that of the network failure when [fetch]
    failed, the failure message of the answer when the answer is not ok, and
    that of the parser when the body of an ok answer is not JSON. *)
Theorem apiRequest_returns_ok_bodies_only (path : string)
  (options : RequestInit) (p : Panel) :
  (forall j,
     fst (apiRequest fetch path options p) = inr j ->
     exists req res,
       sent (snd (apiRequest fetch path options p)) = sent p ++ [req]
       /\ fetch req = inr res
       /\ 200 <= res_status res <= 299
       /\ res_json res = inr j)
  /\ (forall e,
        fst (apiRequest fetch path options p) = inl e ->
        exists req,
          sent (snd (apiRequest fetch path options p)) = sent p ++ [req]
          /\ ((exists m, fetch req = inl m /\ message_of e = m)
              \/ (exists res,
                    fetch req = inr res /\ res_ok res = false
                    /\ message_of e = failure_message res)
              \/ (exists res m,
                    fetch req = inr res /\ res_ok res = true
                    /\ res_json res = inl m /\ message_of e = m))).
Proof.
  rewrite apiRequest_frame. unfold apiRequest. cbv zeta.
  match goal with |- context [fetch ?r] => set (req := r) end.
  destruct (fetch req) as [m|res] eqn:F.
  - split; [discriminate|]. intros e E. inversion E. exists req.
    split; [reflexivity|]. left. now exists m.
  - destruct (res_ok res) eqn:O; cbn [negb].
    + destruct (res_json res) as [m|j'] eqn:J.
      * split; [discriminate|]. intros e E. inversion E. exists req.
        split; [reflexivity|]. right. right. now exists res, m.
      * split; [|discriminate]. intros j E. inversion E; subst.
        exists req, res. unfold res_ok in O.
        apply andb_prop in O as [O1 O2].
        apply Nat.leb_le in O1, O2. now repeat split.
    + split; [discriminate|]. intros e E. inversion E. exists req.
      split; [reflexivity|]. right. left. exists res.
      split; [exact F|]. split; [exact O|reflexivity].
Qed.

End RequestsMore.

Section CredentialMore.

Variable saveAsync_status : gmap string string -> Auth.AsyncResult.



End CredentialMore.

(** A token replaces the one of the signed-in add-in, and the request that
    follows carries it. *)
Lemma apiRequest_sends_the_token_witness :
  exists req,
    sent (snd (apiRequest Demo.auth_server "/api/v1/auth/me"
                 (mkInit None {["Authorization" := "Basic abc"]} NoBody)
                 (panel Demo.signed_in)))
    = [req]
    /\ headers (init req) !! "Authorization" = Some "Bearer tok-0".
Proof.
  destruct (apiRequest_sends_the_token Demo.auth_server "/api/v1/auth/me"
              (mkInit None {["Authorization" := "Basic abc"]} NoBody)
              (panel Demo.signed_in)) as [req [S [_ [_ [_ [A _]]]]]].
  exists req. rewrite S. split; [reflexivity|]. rewrite A.
  vm_compute. reflexivity.
Defined.



(** ** The account panel *)

Section Account.

Context {H : Host}.

Variable fetch : Request -> string + Response.

Variable saveAsync_status : gmap string string -> Auth.AsyncResult.

Variable email_of : Json -> option string.

(** [refreshMe] when a token is stored. *)
Lemma refreshMe_with_token (a : App) (t : string) :
  Auth.getToken (roamingSettings (panel a)) = Some t ->
  refreshMe fetch email_of a
  = match me fetch (panel a) with
    | (inr user, p') =>
        (inr tt, mkApp p' (email a) (password a) "✅ Logged in" (email_of user))
    | (inl e, p') =>
        (inr tt,
         mkApp p' (email a) (password a)
               ("⚠️ Session invalid: " +:+ message_of e) None)
    end.
Proof.
  intros G. unfold refreshMe, bind, get, try_catch, in_panel. rewrite G.
  destruct (me fetch (panel a)) as [[e|u] p']; reflexivity.
Qed.

(** The request [me] sends. *)
Lemma me_frame (p : Panel) :
  snd (me fetch p)
  = set_sent
      (sent p
       ++ [mkRequest "http://localhost:8001/api/v1/auth/me"
             (mkInit None
                match Auth.getToken (roamingSettings p) with
                | Some t => <["Authorization" := "Bearer " +:+ t]> ∅
                | None => ∅
                end NoBody)]) p.
Proof. unfold me. now rewrite apiRequest_frame. Qed.

(** X17.  [refreshMe] never throws.  Without a stored token it sends no
    request and shows no user, leaving the status as it is.  With a token
    it sends one request, to [/api/v1/auth/me], with that token as
    "Bearer" authorization; the user of the answer is shown with the status
    "Logged in", and any failure shows no user and the status "Session
    invalid" with the error's message. *)
Theorem refreshMe_outcomes (a : App) :
  fst (refreshMe fetch email_of a) = inr tt
  /\ (Auth.getToken (roamingSettings (panel a)) = None ->
      snd (refreshMe fetch email_of a)
      = mkApp (panel a) (email a) (password a) (authStatus a) None)
  /\ (forall t,
        Auth.getToken (roamingSettings (panel a)) = Some t ->
        let a' := snd (refreshMe fetch email_of a) in
        (exists req,
           sent (panel a') = sent (panel a) ++ [req]
           /\ url req = "http://localhost:8001/api/v1/auth/me"
           /\ headers (init req) !! "Authorization" = Some ("Bearer " +:+ t))
        /\ (forall e,
              fst (me fetch (panel a)) = inl e ->
              userEmail a' = None
              /\ authStatus a' = "⚠️ Session invalid: " +:+ message_of e)
        /\ (forall user,
              fst (me fetch (panel a)) = inr user ->
              userEmail a' = email_of user
              /\ authStatus a' = "✅ Logged in")).
Proof.
  destruct (Auth.getToken (roamingSettings (panel a))) as [t|] eqn:G.
  - rewrite (refreshMe_with_token a t G).
    pose proof (me_frame (panel a)) as F. rewrite G in F.
    destruct (me fetch (panel a)) as [[e|u] p'] eqn:M; cbn in F; subst p';
      (split; [reflexivity|]; split; [discriminate|]);
      intros t' E; inversion E; subst t'; cbv zeta; cbn;
      (split; [eexists; split; [reflexivity|]; split; [reflexivity|];
               apply lookup_insert_eq|]);
      split; intros x X; inversion X; subst; split; reflexivity.
  - unfold refreshMe, bind, get. rewrite G. cbn.
    split; [reflexivity|]. split; [reflexivity|discriminate].
Qed.

(** [onLogin] once the login has been answered with a body. *)
Lemma onLogin_after_login (a : App) (res : Json) (p1 : Panel) :
  login fetch (email a) (password a) (panel a) = (inr res, p1) ->
  onLogin fetch saveAsync_status email_of a
  = try_catch
      (in_settings (saveTokenValue saveAsync_status (access_token res)) ;;
       refreshMe fetch email_of)
      (fun e => setAuthStatus ("❌ Login failed: " +:+ message_of e))
      (mkApp p1 (email a) (password a) "Logging in..." (userEmail a)).
Proof.
  intros L. unfold onLogin.
  rewrite (bind_ok _ _ a tt (snd (setAuthStatus "Logging in..." a)))
    by reflexivity.
  set (a0 := snd (setAuthStatus "Logging in..." a)).
  rewrite (try_catch_bind_ok _ _ _ a0 a0 a0) by reflexivity.
  assert (I : in_panel (login fetch (email a0) (password a0)) a0
              = (inr res,
                 mkApp p1 (email a) (password a) "Logging in..." (userEmail a))).
  { unfold in_panel. change (panel a0) with (panel a).
    change (email a0) with (email a). change (password a0) with (password a).
    now rewrite L. }
  now rewrite (try_catch_bind_ok _ _ _ _ _ _ I).
Qed.

(** The state [login] leaves. *)
Lemma login_frame (e pw : string) (p : Panel) :
  snd (login fetch e pw p)
  = set_sent
      (sent p
       ++ [mkRequest "http://localhost:8001/api/v1/auth/login"
             (mkInit (Some "POST")
                match Auth.getToken (roamingSettings p) with
                | Some t => <["Authorization" := "Bearer " +:+ t]> json_headers
                | None => json_headers
                end (LoginBody e pw))]) p.
Proof. unfold login. now rewrite apiRequest_frame. Qed.




End Account.

(** The add-in without a token: no request, no user. *)
Lemma refreshMe_outcomes_witness :
  Auth.getToken (roamingSettings (panel Demo.app)) = None
  /\ snd (refreshMe Demo.auth_server Demo.email_of Demo.app) = Demo.app.
Proof.
  assert (G : Auth.getToken (roamingSettings (panel Demo.app)) = None)
    by (vm_compute; reflexivity).
  split; [exact G|].
  destruct (refreshMe_outcomes Demo.auth_server Demo.email_of Demo.app)
    as [_ [N _]].
  rewrite (N G). reflexivity.
Defined.




(** ** The web pages *)

Section SearchPageFacts.

Context {SearchResult Document : Type}.

Variable fetch :
  Web.WebRequest -> string + Web.WebResponse (SearchResult := SearchResult)
                             (Document := Document).

Lemma truthy_token (v : option string) :
  Js.truthy v = true -> exists t, v = Some t /\ t <> "" /\ Js.or_else v "" = t.
Proof.
  destruct v as [t|]; [|discriminate]. cbn. intros T. exists t.
  split; [reflexivity|]. split; [now apply truthy_str_nonempty|now rewrite T].
Qed.

(** [handleSearch] once the query and the token have passed the guards. *)
Lemma handleSearch_sends (s : Web.SearchPage) (t : string) :
  Js.trim (Web.query s) <> "" ->
  Web.access_token_of (Web.s_browser s) = Some t ->
  t <> "" ->
  Web.handleSearch fetch s
  = finally
      (try_catch
         (response <- Web.s_fetch fetch (Web.search_request (Web.query s) t) ;;
          if (Web.w_status response =? 401)%nat then
            Web.s_in_browser (Web.push "/login")
          else if negb (Web.w_ok response) then
            data <- Web.json_of response ;;
            throw (Error (Js.or_else (Web.w_detail data) "Search failed"))
          else
            data <- Web.json_of response ;;
            Web.setResults (Web.w_results data) ;;
            Web.setSearched true)
         (fun err => Web.s_setError (message_or err "Search failed")))
      (Web.s_setLoading false)
      (Web.mkSearchPage (Web.s_browser s) (Web.query s) (Web.results s) true ""
         false).
Proof.
  intros Q A N. apply truthy_str_nonempty in Q, N.
  unfold Web.handleSearch. rewrite (bind_ok _ _ s s s) by reflexivity.
  rewrite Q, A. cbn [negb Js.truthy Js.or_else]. rewrite N. cbn [negb].
  reflexivity.
Qed.

(** X21.  [handleSearch] checks the query before the token.  With a blank
    query it only sets the error "Please enter a search query": no request,
    no redirection, even without a token.  With a query but no token (none
    stored, or an empty one) it only redirects to "/login": no request, and
    the error and the loading flag stay as they were. *)
Theorem search_guards (s : Web.SearchPage) :
  (Js.trim (Web.query s) = "" ->
   Web.handleSearch fetch s
   = (inr tt,
      Web.mkSearchPage (Web.s_browser s) (Web.query s) (Web.results s)
        (Web.s_loading s) "Please enter a search query" (Web.searched s)))
  /\ (Js.trim (Web.query s) <> "" ->
      Js.truthy (Web.access_token_of (Web.s_browser s)) = false ->
      Web.handleSearch fetch s
      = (inr tt,
         Web.mkSearchPage (Web.push "/login" (Web.s_browser s)) (Web.query s)
           (Web.results s) (Web.s_loading s) (Web.s_error s) (Web.searched s))).
Proof.
  split.
  - intros Q. apply truthy_str_empty in Q. unfold Web.handleSearch.
    rewrite (bind_ok _ _ s s s) by reflexivity. now rewrite Q.
  - intros Q A. apply truthy_str_nonempty in Q. unfold Web.handleSearch.
    rewrite (bind_ok _ _ s s s) by reflexivity. now rewrite Q, A.
Qed.

(** X22.  With a query and a token, [handleSearch] sends exactly one request:
    a POST to the search endpoint with the query as typed (not trimmed),
    the limit 10, the threshold 0.3 and the token as "Bearer"
    authorization.  Whatever the answer, it does not throw, the loading
    flag ends false and the local storage is untouched. *)
Theorem search_sends_one_request (s : Web.SearchPage) (t : string) :
  Js.trim (Web.query s) <> "" ->
  Web.access_token_of (Web.s_browser s) = Some t ->
  t <> "" ->
  let s' := snd (Web.handleSearch fetch s) in
  fst (Web.handleSearch fetch s) = inr tt
  /\ Web.requests (Web.s_browser s')
     = Web.requests (Web.s_browser s)
       ++ [Web.mkWebRequest "http://localhost:8001/api/v1/search/" (Some "POST")
             (<["Content-Type" := "application/json"]>
                {["Authorization" := "Bearer " +:+ t]})
             (Web.SearchPayload (Web.query s) 10 "0.3")]
  /\ Web.s_loading s' = false
  /\ Web.localStorage (Web.s_browser s') = Web.localStorage (Web.s_browser s)
  /\ Web.query s' = Web.query s.
Proof.
  intros Q A N. cbv zeta. rewrite (handleSearch_sends s t Q A N).
  unfold finally, try_catch, bind, Web.s_fetch, Web.json_of, throw. cbv zeta.
  destruct (fetch _) as [m|res]; [now repeat split|].
  destruct (Web.w_status res =? 401)%nat; [now repeat split|].
  destruct (negb (Web.w_ok res)); destruct (Web.w_json res);
    now repeat split.
Qed.

(** X23.  The answers to a search.  A 401 answer redirects to "/login" and
    shows no error; another answer that is not ok, with a body that parses
    as JSON, shows the detail of its body, or "Search failed" when it has
    none; an ok answer with such a body replaces the results and marks the
    search as done; a network failure shows its
    message.  Except for an ok answer the results stay as they were, and
    the search is not marked as done. *)
Theorem search_answers (s : Web.SearchPage) (t : string) :
  Js.trim (Web.query s) <> "" ->
  Web.access_token_of (Web.s_browser s) = Some t ->
  t <> "" ->
  let s' := snd (Web.handleSearch fetch s) in
  let req := Web.search_request (Web.query s) t in
  (forall res,
     fetch req = inr res -> Web.w_status res = 401 ->
     Web.pushed (Web.s_browser s') = Web.pushed (Web.s_browser s) ++ ["/login"]
     /\ Web.s_error s' = ""
     /\ Web.results s' = Web.results s
     /\ Web.searched s' = false)
  /\ (forall res data,
        fetch req = inr res -> Web.w_status res <> 401 ->
        Web.w_ok res = false -> Web.w_json res = inr data ->
        Web.s_error s'
        = message_or (Error (Js.or_else (Web.w_detail data) "Search failed"))
            "Search failed"
        /\ Web.pushed (Web.s_browser s') = Web.pushed (Web.s_browser s)
        /\ Web.results s' = Web.results s
        /\ Web.searched s' = false)
  /\ (forall res data,
        fetch req = inr res -> Web.w_ok res = true ->
        Web.w_json res = inr data ->
        Web.results s' = Web.w_results data
        /\ Web.searched s' = true
        /\ Web.s_error s' = "")
  /\ (forall m,
        fetch req = inl m ->
        Web.s_error s' = (if Js.truthy_str m then m else "Search failed")
        /\ Web.results s' = Web.results s
        /\ Web.searched s' = false).
Proof.
  intros Q A N. cbv zeta. rewrite (handleSearch_sends s t Q A N).
  unfold finally, try_catch, bind, Web.s_fetch, Web.json_of, throw. cbv zeta.
  split; [|split; [|split]].
  - intros res F S. rewrite F, S. now repeat split.
  - intros res data F S O J. apply Nat.eqb_neq in S. rewrite F, S, O, J.
    now repeat split.
  - intros res data F O J.
    assert (S : (Web.w_status res =? 401)%nat = false).
    { apply Nat.eqb_neq. intros S. unfold Web.w_ok in O. now rewrite S in O. }
    rewrite F, S, O, J. now repeat split.
  - intros m F. rewrite F. now repeat split.
Qed.

End SearchPageFacts.

Section DocumentsPageFacts.

Context {SearchResult Document : Type}.

Variable fetch :
  Web.WebRequest -> string + Web.WebResponse (SearchResult := SearchResult)
                             (Document := Document).

Lemma loadDocuments_never_throws (s : Web.DocumentsPage) :
  fst (Web.loadDocuments fetch s) = inr tt.
Proof.
  unfold Web.loadDocuments. rewrite (bind_ok _ _ s s s) by reflexivity.
  destruct (negb _); [reflexivity|].
  unfold finally, try_catch, bind, Web.d_fetch, Web.json_of, throw. cbv zeta.
  destruct (fetch _) as [m|res]; [reflexivity|].
  destruct (Web.w_status res =? 401)%nat; [reflexivity|].
  destruct (negb (Web.w_ok res)); [reflexivity|].
  destruct (Web.w_json res); reflexivity.
Qed.

(** X24.  [loadDocuments] never throws.  Without a token it redirects to
    "/login" and does nothing else: the loading flag is not reset.  With a
    token it sends one GET with the token as "Bearer" authorization and
    ends with the loading flag false: a 401 answer redirects to "/login"
    and leaves the error as it was; another answer that is not ok sets "Failed to
    load documents" whatever its body; an ok answer replaces the documents;
    a network failure shows its message. *)
Theorem loadDocuments_outcomes (s : Web.DocumentsPage) :
  fst (Web.loadDocuments fetch s) = inr tt
  /\ (Js.truthy (Web.access_token_of (Web.d_browser s)) = false ->
      snd (Web.loadDocuments fetch s)
      = Web.with_browser (Web.push "/login" (Web.d_browser s)) s)
  /\ (forall t,
        Web.access_token_of (Web.d_browser s) = Some t ->
        t <> "" ->
        let req :=
          Web.mkWebRequest "http://localhost:8001/api/v1/documents/" None
            {["Authorization" := "Bearer " +:+ t]} Web.NoPayload in
        let s' := snd (Web.loadDocuments fetch s) in
        Web.requests (Web.d_browser s') = Web.requests (Web.d_browser s) ++ [req]
        /\ Web.d_loading s' = false
        /\ (forall res,
              fetch req = inr res -> Web.w_status res = 401 ->
              Web.pushed (Web.d_browser s')
              = Web.pushed (Web.d_browser s) ++ ["/login"]
              /\ Web.documents s' = Web.documents s
              /\ Web.d_error s' = Web.d_error s)
        /\ (forall res,
              fetch req = inr res -> Web.w_status res <> 401 ->
              Web.w_ok res = false ->
              Web.d_error s' = "Failed to load documents"
              /\ Web.documents s' = Web.documents s)
        /\ (forall res data,
              fetch req = inr res -> Web.w_ok res = true ->
              Web.w_json res = inr data ->
              Web.documents s' = Web.w_documents data
              /\ Web.d_error s' = Web.d_error s)
        /\ (forall m,
              fetch req = inl m ->
              Web.d_error s'
              = (if Js.truthy_str m then m else "Failed to load documents")
              /\ Web.documents s' = Web.documents s)).
Proof.
  split; [apply loadDocuments_never_throws|]. split.
  - intros A. unfold Web.loadDocuments.
    rewrite (bind_ok _ _ s s s) by reflexivity. now rewrite A.
  - intros t A N. apply truthy_str_nonempty in N. cbv zeta.
    unfold Web.loadDocuments. rewrite (bind_ok _ _ s s s) by reflexivity.
    rewrite A. cbn [negb Js.truthy Js.or_else]. rewrite N. cbn [negb].
    unfold finally, try_catch, bind, Web.d_fetch, Web.json_of, throw, Web.bearer.
    cbv zeta.
    split; [|split; [|split; [|split; [|split]]]].
    + destruct (fetch _) as [m|res]; [reflexivity|].
      destruct (Web.w_status res =? 401)%nat; [reflexivity|].
      destruct (negb (Web.w_ok res)); [reflexivity|].
      destruct (Web.w_json res); reflexivity.
    + destruct (fetch _) as [m|res]; [reflexivity|].
      destruct (Web.w_status res =? 401)%nat; [reflexivity|].
      destruct (negb (Web.w_ok res)); [reflexivity|].
      destruct (Web.w_json res); reflexivity.
    + intros res F S. rewrite F, S. now repeat split.
    + intros res F S O. apply Nat.eqb_neq in S. rewrite F, S, O.
      now repeat split.
    + intros res data F O J.
      assert (S : (Web.w_status res =? 401)%nat = false).
      { apply Nat.eqb_neq. intros S. unfold Web.w_ok in O. now rewrite S in O. }
      rewrite F, S, O, J. now repeat split.
    + intros m F. rewrite F. now repeat split.
Qed.

(** X25.  [handleUpload] checks the file before the token: without a file it
    only shows "Please select a file"; with a file but no token it only
    redirects to "/login".  With both, an answer that is not ok (a 401
    included: the upload has no redirection of its own), with a body that
    parses as JSON, shows the detail of its body, or "Upload failed", keeps
    the form as it is and sends nothing
    more; an ok answer empties the form and reloads the documents.  In both
    cases the uploading flag ends false. *)
Theorem handleUpload_outcomes (s : Web.DocumentsPage) :
  (Web.selectedFile s = None ->
   Web.handleUpload fetch s
   = (inr tt,
      Web.mkDocumentsPage (Web.d_browser s) (Web.documents s) (Web.d_loading s)
        (Web.uploading s) "Please select a file" None (Web.d_title s)
        (Web.d_description s)))
  /\ (forall file,
        Web.selectedFile s = Some file ->
        Js.truthy (Web.access_token_of (Web.d_browser s)) = false ->
        Web.handleUpload fetch s
        = (inr tt, Web.with_browser (Web.push "/login" (Web.d_browser s)) s))
  /\ (forall file t,
        Web.selectedFile s = Some file ->
        Web.access_token_of (Web.d_browser s) = Some t ->
        t <> "" ->
        let req :=
          Web.mkWebRequest "http://localhost:8001/api/v1/documents/upload"
            (Some "POST") {["Authorization" := "Bearer " +:+ t]}
            (Web.FormPayload (Web.file_name file)
               (Js.or_undefined (Web.d_title s))
               (Js.or_undefined (Web.d_description s))) in
        (forall res data,
           fetch req = inr res -> Web.w_ok res = false ->
           Web.w_json res = inr data ->
           Web.handleUpload fetch s
           = (inr tt,
              Web.mkDocumentsPage (Web.record req (Web.d_browser s))
                (Web.documents s) (Web.d_loading s) false
                (message_or
                   (Error (Js.or_else (Web.w_detail data) "Upload failed"))
                   "Upload failed")
                (Some file) (Web.d_title s) (Web.d_description s)))
        /\ (forall res,
              fetch req = inr res -> Web.w_ok res = true ->
              let reloaded :=
                snd (Web.loadDocuments fetch
                       (Web.mkDocumentsPage (Web.record req (Web.d_browser s))
                          (Web.documents s) (Web.d_loading s) true "" None ""
                          "")) in
              Web.handleUpload fetch s
              = (inr tt,
                 Web.mkDocumentsPage (Web.d_browser reloaded)
                   (Web.documents reloaded) (Web.d_loading reloaded) false
                   (Web.d_error reloaded) (Web.selectedFile reloaded)
                   (Web.d_title reloaded) (Web.d_description reloaded)))).
Proof.
  split; [|split].
  - intros F. unfold Web.handleUpload.
    rewrite (bind_ok _ _ s s s) by reflexivity. rewrite F.
    unfold Web.d_setError. now rewrite F.
  - intros file F A. unfold Web.handleUpload.
    rewrite (bind_ok _ _ s s s) by reflexivity. now rewrite F, A.
  - intros file t F A N. apply truthy_str_nonempty in N. cbv zeta.
    unfold Web.handleUpload. rewrite (bind_ok _ _ s s s) by reflexivity.
    rewrite F, A. cbn [negb Js.truthy Js.or_else]. rewrite N. cbn [negb].
    unfold Web.bearer. split.
    + intros res data Fe O J.
      unfold finally, try_catch, bind, Web.d_fetch, Web.json_of, throw,
        Web.setUploading, Web.d_setError. cbn.
      rewrite Fe, O. cbn. rewrite J. cbn. now rewrite F.
    + intros res Fe O. cbv zeta.
      pose proof (loadDocuments_never_throws
                    (Web.mkDocumentsPage
                       (Web.record
                          (Web.mkWebRequest
                             "http://localhost:8001/api/v1/documents/upload"
                             (Some "POST") {["Authorization" := "Bearer " +:+ t]}
                             (Web.FormPayload (Web.file_name file)
                                (Js.or_undefined (Web.d_title s))
                                (Js.or_undefined (Web.d_description s))))
                          (Web.d_browser s))
                       (Web.documents s) (Web.d_loading s) true "" None "" ""))
        as NT.
      unfold finally, try_catch, bind, Web.d_fetch, Web.json_of, throw,
        Web.setUploading, Web.d_setError, Web.resetForm, ret.
      cbn -[Web.loadDocuments].
      rewrite Fe, O. cbn -[Web.loadDocuments].
      destruct (Web.loadDocuments fetch _) as [[e|[]] s1]; [discriminate NT|].
      reflexivity.
Qed.

(** X26.  [handleDelete] does nothing at all when the dialog is declined or
    when no token is stored (it does not redirect).  Otherwise it sends one
    DELETE for the document: an answer that is not ok changes nothing else
    (no error is shown and the list is not reloaded); a network failure
    only writes a line to the error console; an ok answer reloads the
    documents. *)
Theorem handleDelete_outcomes (s : Web.DocumentsPage) (id : string) :
  Web.handleDelete fetch false id s = (inr tt, s)
  /\ (Js.truthy (Web.access_token_of (Web.d_browser s)) = false ->
      Web.handleDelete fetch true id s = (inr tt, s))
  /\ (forall t,
        Web.access_token_of (Web.d_browser s) = Some t ->
        t <> "" ->
        let req :=
          Web.mkWebRequest ("http://localhost:8001/api/v1/documents/" +:+ id)
            (Some "DELETE") {["Authorization" := "Bearer " +:+ t]}
            Web.NoPayload in
        (forall res,
           fetch req = inr res -> Web.w_ok res = false ->
           Web.handleDelete fetch true id s
           = (inr tt, Web.with_browser (Web.record req (Web.d_browser s)) s))
        /\ (forall m,
              fetch req = inl m ->
              Web.handleDelete fetch true id s
              = (inr tt,
                 Web.with_browser
                   (Web.console_error ("Delete failed: " +:+ m)
                      (Web.record req (Web.d_browser s))) s))
        /\ (forall res,
              fetch req = inr res -> Web.w_ok res = true ->
              Web.handleDelete fetch true id s
              = (inr tt,
                 snd (Web.loadDocuments fetch
                        (Web.with_browser (Web.record req (Web.d_browser s)) s))))).
Proof.
  split; [reflexivity|]. split.
  - intros A. unfold Web.handleDelete. cbn [negb].
    rewrite (bind_ok _ _ s s s) by reflexivity. now rewrite A.
  - intros t A N. apply truthy_str_nonempty in N. cbv zeta.
    unfold Web.handleDelete. cbn [negb].
    rewrite (bind_ok _ _ s s s) by reflexivity.
    rewrite A. cbn [negb Js.truthy Js.or_else]. rewrite N. cbn [negb].
    unfold Web.bearer, try_catch, bind, Web.d_fetch. cbv zeta.
    split; [|split].
    + intros res F O. now rewrite F, O.
    + intros m F. now rewrite F.
    + intros res F O. rewrite F, O. fold (Web.with_browser (Web.record
        (Web.mkWebRequest ("http://localhost:8001/api/v1/documents/" +:+ id)
           (Some "DELETE") {["Authorization" := "Bearer " +:+ t]} Web.NoPayload)
        (Web.d_browser s)) s).
      pose proof (loadDocuments_never_throws
                    (Web.with_browser
                       (Web.record
                          (Web.mkWebRequest
                             ("http://localhost:8001/api/v1/documents/" +:+ id)
                             (Some "DELETE")
                             {["Authorization" := "Bearer " +:+ t]}
                             Web.NoPayload)
                          (Web.d_browser s)) s)) as NT.
      destruct (Web.loadDocuments fetch _) as [[e|[]] s1]; [discriminate NT|].
      reflexivity.
Qed.

End DocumentsPageFacts.

(** A search without a token: the redirection, and nothing sent. *)
Lemma search_guards_witness :
  let s := WebDemo.search_page WebDemo.anonymous "lease" in
  Js.trim (Web.query s) <> ""
  /\ Js.truthy (Web.access_token_of (Web.s_browser s)) = false
  /\ Web.pushed (Web.s_browser (snd (Web.handleSearch (WebDemo.answer 200 None) s)))
     = ["/login"]
  /\ Web.requests (Web.s_browser (snd (Web.handleSearch (WebDemo.answer 200 None) s)))
     = [].
Proof.
  cbv zeta.
  assert (Q : Js.trim (Web.query (WebDemo.search_page WebDemo.anonymous "lease"))
              <> "") by (vm_compute; discriminate).
  assert (A : Js.truthy
                (Web.access_token_of
                   (Web.s_browser (WebDemo.search_page WebDemo.anonymous "lease")))
              = false) by (vm_compute; reflexivity).
  split; [exact Q|]. split; [exact A|].
  destruct (search_guards (WebDemo.answer 200 None)
              (WebDemo.search_page WebDemo.anonymous "lease")) as [_ G].
  rewrite (G Q A). split; reflexivity.
Defined.

(** A search with a token and a padded query. *)
Lemma search_sends_one_request_witness :
  let s := WebDemo.search_page WebDemo.browser " lease " in
  "tok-9" <> ""
  /\ map Web.w_payload
       (Web.requests
          (Web.s_browser (snd (Web.handleSearch (WebDemo.answer 200 None) s))))
     = [Web.SearchPayload " lease " 10 "0.3"]
  /\ Web.s_loading (snd (Web.handleSearch (WebDemo.answer 200 None) s)) = false.
Proof.
  cbv zeta.
  assert (N : "tok-9" <> "") by discriminate.
  assert (Q : Js.trim (Web.query (WebDemo.search_page WebDemo.browser " lease "))
              <> "") by (vm_compute; discriminate).
  assert (A : Web.access_token_of
                (Web.s_browser (WebDemo.search_page WebDemo.browser " lease "))
              = Some "tok-9") by (vm_compute; reflexivity).
  split; [exact N|].
  pose proof (search_sends_one_request (WebDemo.answer 200 None)
                (WebDemo.search_page WebDemo.browser " lease ") "tok-9" Q A N)
    as W.
  cbv zeta in W. destruct W as [_ [R [L _]]].
  rewrite R, L. split; reflexivity.
Defined.

(** A search answered with 401. *)
Lemma search_answers_witness :
  let s' := snd (Web.handleSearch (WebDemo.answer 401 (Some "Not authenticated"))
                   (WebDemo.search_page WebDemo.browser "lease")) in
  Web.pushed (Web.s_browser s') = ["/login"]
  /\ Web.s_error s' = ""
  /\ Web.results s' = ["old result"].
Proof.
  cbv zeta.
  assert (N : "tok-9" <> "") by discriminate.
  assert (Q : Js.trim (Web.query (WebDemo.search_page WebDemo.browser "lease"))
              <> "") by (vm_compute; discriminate).
  assert (A : Web.access_token_of
                (Web.s_browser (WebDemo.search_page WebDemo.browser "lease"))
              = Some "tok-9") by (vm_compute; reflexivity).
  pose proof (search_answers (WebDemo.answer 401 (Some "Not authenticated"))
                (WebDemo.search_page WebDemo.browser "lease") "tok-9" Q A N)
    as W.
  cbv zeta in W. destruct W as [W _].
  edestruct W as [P [E [R _]]]; [reflexivity|reflexivity|].
  rewrite P, E, R. repeat split.
Defined.

(** The documents page without a token: redirected, still loading. *)
Lemma loadDocuments_outcomes_witness :
  let s := WebDemo.documents_page WebDemo.anonymous in
  Js.truthy (Web.access_token_of (Web.d_browser s)) = false
  /\ Web.pushed (Web.d_browser (snd (Web.loadDocuments (WebDemo.answer 200 None) s)))
     = ["/login"]
  /\ Web.d_loading (snd (Web.loadDocuments (WebDemo.answer 200 None) s)) = true.
Proof.
  cbv zeta.
  assert (A : Js.truthy
                (Web.access_token_of
                   (Web.d_browser (WebDemo.documents_page WebDemo.anonymous)))
              = false) by (vm_compute; reflexivity).
  split; [exact A|].
  destruct (loadDocuments_outcomes (WebDemo.answer 200 None)
              (WebDemo.documents_page WebDemo.anonymous)) as [_ [G _]].
  rewrite (G A). split; reflexivity.
Defined.

(** An upload answered with 401: an error, no redirection, the file kept. *)
Lemma handleUpload_outcomes_witness :
  let s' := snd (Web.handleUpload (WebDemo.answer 401 (Some "Not authenticated"))
                   (WebDemo.documents_page WebDemo.browser)) in
  "tok-9" <> ""
  /\ Web.d_error s' = "Not authenticated"
  /\ Web.pushed (Web.d_browser s') = []
  /\ Web.selectedFile s' = Some (Web.mkFile "nda.docx" 2048)
  /\ Web.uploading s' = false.
Proof.
  cbv zeta.
  assert (N : "tok-9" <> "") by discriminate.
  split; [exact N|].
  assert (A : Web.access_token_of
                (Web.d_browser (WebDemo.documents_page WebDemo.browser))
              = Some "tok-9") by (vm_compute; reflexivity).
  destruct (handleUpload_outcomes
              (WebDemo.answer 401 (Some "Not authenticated"))
              (WebDemo.documents_page WebDemo.browser)) as [_ [_ U]].
  pose proof (U (Web.mkFile "nda.docx" 2048) "tok-9" eq_refl A N) as W.
  cbv zeta in W. destruct W as [W _].
  erewrite W; [|reflexivity|reflexivity|reflexivity].
  repeat split.
Defined.

(** A delete answered with 404: one request, and the page as it was. *)
Lemma handleDelete_outcomes_witness :
  let s := WebDemo.documents_page WebDemo.browser in
  let s' := snd (Web.handleDelete (WebDemo.answer 404 None) true "42" s) in
  "tok-9" <> ""
  /\ map Web.w_url (Web.requests (Web.d_browser s'))
     = ["http://localhost:8001/api/v1/documents/42"]
  /\ Web.documents s' = Web.documents s
  /\ Web.d_error s' = ""
  /\ Web.console (Web.d_browser s') = [].
Proof.
  cbv zeta.
  assert (N : "tok-9" <> "") by discriminate.
  split; [exact N|].
  assert (A : Web.access_token_of
                (Web.d_browser (WebDemo.documents_page WebDemo.browser))
              = Some "tok-9") by (vm_compute; reflexivity).
  destruct (handleDelete_outcomes (WebDemo.answer 404 None)
              (WebDemo.documents_page WebDemo.browser) "42") as [_ [_ D]].
  pose proof (D "tok-9" A N) as W. cbv zeta in W. destruct W as [W _].
  erewrite W; [|reflexivity|reflexivity].
  repeat split.
Defined.

(** A body returned by [apiRequest]: the answer was ok. *)
Lemma apiRequest_returns_ok_bodies_only_witness :
  exists req res,
    Sample.server [Sample.effective_date] req = inr res
    /\ 200 <= res_status res <= 299
    /\ res_json res = inr (mkJson None (Some [Sample.effective_date]) None).
Proof.
  destruct (apiRequest_returns_ok_bodies_only
              (Sample.server [Sample.effective_date]) "/api/v1/word/proofread"
              (mkInit (Some "POST") json_headers (ProofreadBody "text"))
              (Sample.panel Sample.agreement)) as [B _].
  destruct (B (mkJson None (Some [Sample.effective_date]) None))
    as [req [res [_ [F [S J]]]]]; [vm_compute; reflexivity|].
  exists req, res. split; [exact F|]. split; [exact S|exact J].
Defined.
